(** * DeepLearnerBackend: the course and enrollment endpoints of [Server.js]

    A shallow embedding of the three request handlers of [Server.js]
    ([GET /api/courses], [GET /api/courses/:id], [POST /api/enroll]) and of
    the mail helper [sendMailSafe], together with the fragment of JavaScript
    they rest on: values, truthiness, [typeof], property access, string
    conversion in template literals and [JSON.parse].

    The handlers are written in a small state-and-exception monad over a
    world that holds the two tables of the store and a trace of everything
    a handler does to the outside (statements, mail, console).  What the
    handlers do not decide is a parameter ([Env]): whether a transporter
    exists, whether a send or a statement fails, how the store compares ids.

    Conventions of the model:
    - [req.body] is an object: [bodyParser.json()] (line 21) leaves the
      parsed JSON object there, the empty object when there is none;
    - what mysql2 and nodemailer throw or reject with is an [Error] object;
      every statement and every send settles;
    - a hole of a template literal converts its value to a string and
      throws where JavaScript does: a TypeError for an object that has no
      callable [toString], a RangeError when arrays are nested deeper than
      the stack holds; how the engine prints a number ([number_text]) and
      how many nested conversions its stack holds ([stack_depth]) are
      parameters;
    - [res.json] is taken to serialise what it is given: the theorems on a
      decoded syllabus name the values they cover;
    - one request runs from its first line to its answer; a string is the
      sequence of its UTF-8 bytes;
    - the start-up of the transporter (lines 57-69) and the two upload
      callbacks (lines 28-39) are modelled as well; [path.extname] is
      Node's scan for POSIX paths. *)

From Stdlib Require Import ZArith List String Ascii Bool Lia DecimalString.
Import ListNotations.
Open Scope string_scope.
Open Scope Z_scope.
Set Warnings "-register-all".

(* ================================================================== *)
(** * JavaScript values *)
(* ================================================================== *)

Module JS.

(** The values a JSON request body, a row of the store or a decoded
    syllabus can hold.  A number is kept as the decimal it was written as:
    [JNum m k] is [m / 10^k].  JSON has no NaN and no infinities, so the
    only falsy number is zero. *)
Inductive JSValue : Type :=
| JUndefined
| JNull
| JBool (b : bool)
| JNum (mant : Z) (scale : nat)
| JStr (s : string)
| JArr (items : list JSValue)
| JObj (props : list (string * JSValue)).

(** An integer as a JavaScript number. *)
Definition JInt (z : Z) : JSValue := JNum z 0.

(** [!v] is [negb (truthy v)]. *)
Definition truthy (v : JSValue) : bool :=
  match v with
  | JUndefined | JNull => false
  | JBool b => b
  | JNum m _ => negb (m =? 0)
  | JStr s => negb (s =? "")%string
  | JArr _ | JObj _ => true
  end.

Definition typeof (v : JSValue) : string :=
  match v with
  | JUndefined => "undefined"
  | JNull => "object"
  | JBool _ => "boolean"
  | JNum _ _ => "number"
  | JStr _ => "string"
  | JArr _ | JObj _ => "object"
  end.

(** ** Objects as ordered property lists *)

Definition Props := list (string * JSValue).

(** [o.k]: the first property named [k], [undefined] when there is none. *)
Fixpoint get (o : Props) (k : string) : JSValue :=
  match o with
  | [] => JUndefined
  | (k', v) :: rest => if (k' =? k)%string then v else get rest k
  end.

(** [o.k = v]: overwrite in place, or add as the last property.  (The
    order of properties plays no part in what follows.) *)
Fixpoint set (o : Props) (k : string) (v : JSValue) : Props :=
  match o with
  | [] => [(k, v)]
  | (k', v') :: rest =>
      if (k' =? k)%string then (k', v) :: rest else (k', v') :: set rest k v
  end.

(** ** Errors and completions *)

(** An [Error] object, as mysql2, nodemailer and the runtime throw them. *)
Record JsError : Type := mkError { message : string }.

(** How an evaluation ends: with a value, or with a thrown error. *)
Inductive Outcome (A : Type) : Type :=
| Return (a : A)
| Throw (e : JsError).
Arguments Return {A} a.
Arguments Throw {A} e.

(** The TypeError of a conversion to a string that finds no primitive. *)
Definition type_error : JsError :=
  {| message := "Cannot convert object to primitive value" |}.

(** The RangeError of a call the stack has no room for. *)
Definition range_error : JsError :=
  {| message := "Maximum call stack size exceeded" |}.

(** ** String conversion, as a template literal performs it *)

Fixpoint zeros (n : nat) : string :=
  match n with O => "" | S n' => String "0" (zeros n') end.

(** The decimal digits of a natural number. *)
Definition digits (z : Z) : string := NilZero.string_of_uint (N.to_uint (Z.to_N z)).

Fixpoint take (n : nat) (s : string) : string :=
  match n, s with
  | S n', String c s' => String c (take n' s')
  | _, _ => ""
  end.

Fixpoint drop (n : nat) (s : string) : string :=
  match n, s with
  | S n', String _ s' => drop n' s'
  | _, _ => s
  end.

(** Drops the trailing zeros of a decimal fraction: 1.50 is 1.5, 2.0 is 2. *)
Fixpoint normalise (m : Z) (k : nat) : Z * nat :=
  match k with
  | O => (m, O)
  | S k' => if m mod 10 =? 0 then normalise (m / 10) k' else (m, k)
  end.

(** [m / 10^k] in plain decimal notation: ["15"], ["-0.05"], ["1.5"].
    This is what JavaScript prints for an integer below 1e21 in size, such
    as [Date.now()] returns, and for a decimal of up to 15 digits between
    1e-6 and 1e21; the sample processes below print numbers with it. *)
Definition number_to_string (m : Z) (k : nat) : string :=
  let '(m, k) := normalise m k in
  let sign := if m <? 0 then "-" else "" in
  let ds := digits (Z.abs m) in
  match k with
  | O => sign ++ ds
  | S _ =>
      let padded := zeros (S k - String.length ds)%nat ++ ds in
      let int_len := (String.length padded - k)%nat in
      sign ++ take int_len padded ++ "." ++ drop int_len padded
  end.

(** Whether an object has an own property [k]. *)
Definition has_own (o : Props) (k : string) : bool :=
  existsb (fun kv => (fst kv =? k)%string) o.

(** [ToString], as a template literal applies it to a value of JSON data.
    [num] is the engine's printing of numbers, [depth] the number of nested
    method calls its stack still holds.  A primitive converts as it stands.
    An array or an object converts through a call of its [toString]: with no
    room for the call a RangeError is thrown.  An object prints through
    [Object.prototype.toString] unless it has an own property "toString":
    that property holds data, which cannot be called, and neither it nor
    [valueOf] yields a primitive, so a TypeError is thrown.  An array prints
    through [join]: its elements converted in turn, one level deeper,
    [null] and [undefined] as nothing. *)
Fixpoint ToString (num : Z -> nat -> string) (depth : nat) (v : JSValue)
    {struct v} : Outcome string :=
  match v with
  | JUndefined => Return "undefined"
  | JNull => Return "null"
  | JBool true => Return "true"
  | JBool false => Return "false"
  | JNum m k => Return (num m k)
  | JStr s => Return s
  | JArr items =>
      match depth with
      | O => Throw range_error
      | S d =>
          (fix join (l : list JSValue) : Outcome string :=
             match l with
             | [] => Return ""
             | x :: rest =>
                 match match x with
                       | JUndefined | JNull => Return ""
                       | _ => ToString num d x
                       end with
                 | Throw e => Throw e
                 | Return sx =>
                     match rest with
                     | [] => Return sx
                     | _ :: _ =>
                         match join rest with
                         | Return sr => Return (sx ++ "," ++ sr)
                         | Throw e => Throw e
                         end
                     end
                 end
             end) items
      end
  | JObj props =>
      match depth with
      | O => Throw range_error
      | S _ =>
          if has_own props "toString" then Throw type_error
          else Return "[object Object]"
      end
  end.

(** The text of a value known to be a string. *)
Definition string_value (v : JSValue) : string :=
  match v with
  | JStr s => s
  | _ => ""
  end.

End JS.
Export JS.


(* ================================================================== *)
(** * [JSON.parse] *)
(* ================================================================== *)

Module JSON.

(** What a parser returns: a value and the unread text, a [SyntaxError], or
    the report that the recursion budget ran out.  [parse_value_total] shows
    that the budget [JSON_parse] grants is never exhausted. *)
Inductive result (A : Type) : Type :=
| Parsed (a : A) (rest : string)
| SyntaxError
| OutOfFuel.
Arguments Parsed {A} a rest.
Arguments SyntaxError {A}.
Arguments OutOfFuel {A}.

Definition dquote : ascii := ascii_of_nat 34.
Definition backslash : ascii := ascii_of_nat 92.

(** JSON white space: space, tab, line feed, carriage return. *)
Definition is_ws (c : ascii) : bool :=
  let n := nat_of_ascii c in
  ((n =? 32) || (n =? 9) || (n =? 10) || (n =? 13))%nat.

Fixpoint skip_ws (s : string) : string :=
  match s with
  | String c r => if is_ws c then skip_ws r else s
  | "" => s
  end.

(** ** Numbers *)

Definition digit_of (c : ascii) : option Z :=
  let n := nat_of_ascii c in
  if ((48 <=? n) && (n <=? 57))%nat then Some (Z.of_nat (n - 48)) else None.

(** Reads a run of digits onto [acc]; also counts them. *)
Fixpoint parse_digits (s : string) (acc : Z) (count : nat) : Z * nat * string :=
  match s with
  | String c r =>
      match digit_of c with
      | Some d => parse_digits r (10 * acc + d) (S count)
      | None => (acc, count, s)
      end
  | "" => (acc, count, s)
  end.

(** int = "0" | digit1-9 digit* *)
Definition parse_int (s : string) : option (Z * string) :=
  match s with
  | String c r =>
      match digit_of c with
      | Some d =>
          if d =? 0 then Some (0, r)
          else let '(v, _, r') := parse_digits r d 1 in Some (v, r')
      | None => None
      end
  | "" => None
  end.

(** frac = "." digit+ (optional): the digits extend the mantissa. *)
Definition parse_frac (s : string) (m : Z) : option (Z * nat * string) :=
  match s with
  | String c r =>
      if (c =? ".")%char then
        let '(m', k, r') := parse_digits r m 0 in
        match k with O => None | S _ => Some (m', k, r') end
      else Some (m, O, s)
  | "" => Some (m, O, s)
  end.

(** The optional sign of an exponent. *)
Definition exp_sign (s : string) : bool * string :=
  match s with
  | String c r =>
      if (c =? "-")%char then (true, r)
      else if (c =? "+")%char then (false, r)
      else (false, s)
  | "" => (false, s)
  end.

(** exp = ("e" | "E") ("+" | "-")? digit+ (optional). *)
Definition parse_exp (s : string) : option (Z * string) :=
  match s with
  | String c r =>
      if ((c =? "e") || (c =? "E"))%char then
        let '(neg, r1) := exp_sign r in
        let '(e, k, r2) := parse_digits r1 0 0 in
        match k with
        | O => None
        | S _ => Some (if neg then - e else e, r2)
        end
      else Some (0, s)
  | "" => Some (0, s)
  end.

(** The number [m * 10^(e - k)], kept as the exact decimal of the numeral.
    JavaScript rounds the numeral to a double; the two agree on every
    integer of at most 2^53 in size, and the theorems that name a decoded
    number are limited to those. *)
Definition mk_number (m : Z) (k : nat) (e : Z) : JSValue :=
  let shift := e - Z.of_nat k in
  if 0 <=? shift then JNum (m * 10 ^ shift) 0
  else let '(m', k') := normalise m (Z.to_nat (- shift)) in JNum m' k'.

(** The optional minus sign of a number. *)
Definition minus_sign (s : string) : bool * string :=
  match s with
  | String c r => if (c =? "-")%char then (true, r) else (false, s)
  | "" => (false, s)
  end.

(** number = "-"? int frac? exp? *)
Definition parse_number (s : string) : option (JSValue * string) :=
  let '(neg, s1) := minus_sign s in
  match parse_int s1 with
  | None => None
  | Some (i, s2) =>
      match parse_frac s2 i with
      | None => None
      | Some (m, k, s3) =>
          match parse_exp s3 with
          | None => None
          | Some (e, s4) => Some (mk_number (if neg then - m else m) k e, s4)
          end
      end
  end.

(** ** Strings *)

(** A character of a string literal: a byte of the text as it stands, or a
    UTF-16 code unit written as a [\uXXXX] escape. *)
Inductive item : Type :=
| Raw (c : ascii)
| Esc (u : N).

Definition hex_of (c : ascii) : option N :=
  let n := N_of_ascii c in
  (if (48 <=? n) && (n <=? 57) then Some (n - 48)
   else if (65 <=? n) && (n <=? 70) then Some (n - 55)
   else if (97 <=? n) && (n <=? 102) then Some (n - 87)
   else None)%N.

Definition hex4 (a b c d : ascii) : option N :=
  match hex_of a, hex_of b, hex_of c, hex_of d with
  | Some x, Some y, Some z, Some w => Some (((x * 16 + y) * 16 + z) * 16 + w)%N
  | _, _, _, _ => None
  end.

(** The character a one-letter escape stands for. *)
Definition simple_escape (c : ascii) : option ascii :=
  if (c =? dquote)%char then Some dquote
  else if (c =? backslash)%char then Some backslash
  else if (c =? "/")%char then Some "/"%char
  else if (c =? "b")%char then Some (ascii_of_nat 8)
  else if (c =? "f")%char then Some (ascii_of_nat 12)
  else if (c =? "n")%char then Some (ascii_of_nat 10)
  else if (c =? "r")%char then Some (ascii_of_nat 13)
  else if (c =? "t")%char then Some (ascii_of_nat 9)
  else None.

(** Reads the characters of a string literal up to its closing quote. *)
Fixpoint parse_chars (s : string) (acc : list item) : option (list item * string) :=
  match s with
  | "" => None
  | String c r =>
      if (c =? dquote)%char then Some (rev acc, r)
      else if (c =? backslash)%char then
        match r with
        | "" => None
        | String e r1 =>
            if (e =? "u")%char then
              match r1 with
              | String h1 (String h2 (String h3 (String h4 r2))) =>
                  match hex4 h1 h2 h3 h4 with
                  | Some u => parse_chars r2 (Esc u :: acc)
                  | None => None
                  end
              | _ => None
              end
            else
              match simple_escape e with
              | Some ch => parse_chars r1 (Raw ch :: acc)
              | None => None
              end
        end
      else if (nat_of_ascii c <? 32)%nat then None
      else parse_chars r (Raw c :: acc)
  end.

(** The UTF-8 bytes of a code point. *)
Definition utf8 (cp : N) : string :=
  let byte (n : N) := ascii_of_N n in
  (if cp <? 128 then String (byte cp) ""
   else if cp <? 2048 then
     String (byte (192 + cp / 64)) (String (byte (128 + cp mod 64)) "")
   else if cp <? 65536 then
     String (byte (224 + cp / 4096))
       (String (byte (128 + (cp / 64) mod 64))
          (String (byte (128 + cp mod 64)) ""))
   else
     String (byte (240 + cp / 262144))
       (String (byte (128 + (cp / 4096) mod 64))
          (String (byte (128 + (cp / 64) mod 64))
             (String (byte (128 + cp mod 64)) ""))))%N.

Definition is_high (u : N) : bool := ((55296 <=? u) && (u <=? 56319))%N.
Definition is_low (u : N) : bool := ((56320 <=? u) && (u <=? 57343))%N.

(** The text of a literal: raw bytes are kept, an escaped surrogate pair is
    one code point, any other escaped code unit stands for itself. *)
Fixpoint encode (l : list item) : string :=
  match l with
  | [] => ""
  | Raw c :: r => String c (encode r)
  | Esc hi :: r =>
      match r with
      | Esc lo :: r' =>
          if is_high hi && is_low lo
          then utf8 (65536 + (hi - 55296) * 1024 + (lo - 56320))%N ++ encode r'
          else utf8 hi ++ encode r
      | _ => utf8 hi ++ encode r
      end
  end.

(** A string literal, read from just after its opening quote. *)
Definition parse_string (s : string) : option (string * string) :=
  match parse_chars s [] with
  | Some (items, r) => Some (encode items, r)
  | None => None
  end.

(** ** Values *)

(** value, elements (after "[") and members (after "{") of the JSON
    grammar.  Every call spends one unit of [fuel].  The members of an
    object are kept in the order of the text (JavaScript lists keys that
    read as array indices first); no theorem reads the order, or the
    members, of a decoded object. *)
Fixpoint parse_value (fuel : nat) (s : string) {struct fuel} : result JSValue :=
  match fuel with
  | O => OutOfFuel
  | S fuel' =>
      let s0 := skip_ws s in
      match s0 with
      | "" => SyntaxError
      | String c r =>
          if (c =? "{")%char then
            match skip_ws r with
            | String c2 r2 =>
                if (c2 =? "}")%char then Parsed (JObj []) r2
                else parse_members fuel' r []
            | "" => SyntaxError
            end
          else if (c =? "[")%char then
            match skip_ws r with
            | String c2 r2 =>
                if (c2 =? "]")%char then Parsed (JArr []) r2
                else parse_elements fuel' r []
            | "" => SyntaxError
            end
          else if (c =? dquote)%char then
            match parse_string r with
            | Some (str, r') => Parsed (JStr str) r'
            | None => SyntaxError
            end
          else if prefix "true" s0 then Parsed (JBool true) (drop 4 s0)
          else if prefix "false" s0 then Parsed (JBool false) (drop 5 s0)
          else if prefix "null" s0 then Parsed JNull (drop 4 s0)
          else
            match parse_number s0 with
            | Some (v, r') => Parsed v r'
            | None => SyntaxError
            end
      end
  end

with parse_elements (fuel : nat) (s : string) (acc : list JSValue)
       {struct fuel} : result JSValue :=
  match fuel with
  | O => OutOfFuel
  | S fuel' =>
      match parse_value fuel' s with
      | Parsed v r =>
          match skip_ws r with
          | String c r' =>
              if (c =? ",")%char then parse_elements fuel' r' (v :: acc)
              else if (c =? "]")%char then Parsed (JArr (rev (v :: acc))) r'
              else SyntaxError
          | "" => SyntaxError
          end
      | SyntaxError => SyntaxError
      | OutOfFuel => OutOfFuel
      end
  end

with parse_members (fuel : nat) (s : string) (acc : Props)
       {struct fuel} : result JSValue :=
  match fuel with
  | O => OutOfFuel
  | S fuel' =>
      match skip_ws s with
      | String c r =>
          if (c =? dquote)%char then
            match parse_string r with
            | Some (k, r1) =>
                match skip_ws r1 with
                | String c1 r2 =>
                    if (c1 =? ":")%char then
                      match parse_value fuel' r2 with
                      | Parsed v r3 =>
                          match skip_ws r3 with
                          | String c3 r4 =>
                              (* a repeated key keeps its last value *)
                              if (c3 =? ",")%char
                              then parse_members fuel' r4 (set acc k v)
                              else if (c3 =? "}")%char
                              then Parsed (JObj (set acc k v)) r4
                              else SyntaxError
                          | "" => SyntaxError
                          end
                      | SyntaxError => SyntaxError
                      | OutOfFuel => OutOfFuel
                      end
                    else SyntaxError
                | "" => SyntaxError
                end
            | None => SyntaxError
            end
          else SyntaxError
      | "" => SyntaxError
      end
  end.

(** The budget that is always enough: two units per character and one. *)
Definition fuel_for (text : string) : nat := 2 * String.length text + 1.

(** [JSON.parse(text)]: [None] is the [SyntaxError] it throws.  The whole
    text must be one value, white space around it allowed. *)
Definition JSON_parse (text : string) : option JSValue :=
  match parse_value (fuel_for text) text with
  | Parsed v rest =>
      match skip_ws rest with
      | "" => Some v
      | String _ _ => None
      end
  | SyntaxError => None
  | OutOfFuel => None
  end.

End JSON.
Export JSON.

(* ================================================================== *)
(** * The world the handlers run in *)
(* ================================================================== *)

(** An argument of [console.warn] / [console.error]. *)
Inductive LogArg : Type :=
| LText (s : string)
| LErr (e : JsError).

(** The object [sendMailSafe] hands to [transporter.sendMail]. *)
Record Mail : Type := mkMail {
  from : string;
  to : JSValue;
  subject : JSValue;
  html : JSValue
}.

(** The three statements the handlers send to the pool. *)
Inductive SqlStmt : Type :=
| SelectCourses
| SelectCourseById (id : JSValue)
| InsertEnrollment (name email phone status course_id : JSValue).

(** Statement text and bound parameters, as written in [Server.js]. *)
Definition sql_text (q : SqlStmt) : string * list JSValue :=
  match q with
  | SelectCourses => ("SELECT * FROM courses", [])
  | SelectCourseById id => ("SELECT * FROM courses WHERE id = ?", [id])
  | InsertEnrollment name email phone status course_id =>
      ("INSERT INTO enrollments (name, email, phone, status, course_id) VALUES (?, ?, ?, ?, ?)",
       [name; email; phone; status; course_id])
  end.

(** Everything a handler does to the outside, in the order it happens. *)
Inductive Event : Type :=
| EvDb (q : SqlStmt)                      (* a statement reaches the pool *)
| EvMailCall (to subject html : JSValue)  (* sendMailSafe is entered *)
| EvSendMail (m : Mail)                   (* transporter.sendMail is called *)
| EvWarn (args : list LogArg)             (* console.warn *)
| EvError (args : list LogArg).           (* console.error *)

Definition Row := Props.

(** The two tables and the AUTO_INCREMENT counter of [enrollments]. *)
Record Store : Type := mkStore {
  courses : list Row;
  enrollments : list Row;
  next_insert_id : Z
}.

Record World : Type := mkWorld {
  store : Store;
  trace : list Event
}.

(** A configured mail transport: whether a send fails may depend on the
    message and on all that happened before. *)
Record Transport : Type := mkTransport {
  sendMail : list Event -> Mail -> option JsError
}.

(** What is fixed when the process starts, and what the handlers do not
    control: the transporter ([null] when [createTransport] threw), the
    environment variable EMAIL_USER (a string, or unset), whether the store
    refuses a statement, how the store compares the [id] column with a bound
    parameter, how the engine prints the number [m / 10^k], and how many
    nested conversions its stack holds. *)
Record Env : Type := mkEnv {
  transporter : option Transport;
  EMAIL_USER : option string;
  db_fault : World -> SqlStmt -> option JsError;
  id_matches : JSValue -> JSValue -> bool;
  number_text : Z -> nat -> string;
  stack_depth : nat
}.

(** ** Computations: state and exceptions *)

Definition M (A : Type) : Type := World -> Outcome A * World.

Definition ret {A} (a : A) : M A := fun w => (Return a, w).

Definition throw {A} (e : JsError) : M A := fun w => (Throw e, w).

Definition bind {A B} (c : M A) (k : A -> M B) : M B :=
  fun w =>
    match c w with
    | (Return a, w') => k a w'
    | (Throw e, w') => (Throw e, w')
    end.

(** [try { body } catch (err) { handler }] *)
Definition try_catch {A} (body : M A) (handler : JsError -> M A) : M A :=
  fun w =>
    match body w with
    | (Return a, w') => (Return a, w')
    | (Throw e, w') => handler e w'
    end.

Definition emit (e : Event) : M unit :=
  fun w => (Return tt, {| store := store w; trace := (trace w ++ [e])%list |}).

Declare Scope js_scope.
Delimit Scope js_scope with js.
Notation "x <- c ;; k" := (bind c (fun x => k))
  (at level 61, c at next level, right associativity) : js_scope.
Notation "c ;; k" := (bind c (fun _ => k))
  (at level 61, right associativity) : js_scope.
Open Scope js_scope.

Definition console_warn (args : list LogArg) : M unit := emit (EvWarn args).
Definition console_error (args : list LogArg) : M unit := emit (EvError args).

(** ** The pool *)

Record ResultSetHeader : Type := mkHeader {
  insertId : Z;
  affectedRows : Z
}.

(** One statement: it is recorded, then the store either refuses it (the
    promise rejects, the tables stay as they are) or runs it. *)
Definition db_request {A} (env : Env) (q : SqlStmt) (run : Store -> A * Store) : M A :=
  fun w =>
    let t := (trace w ++ [EvDb q])%list in
    match db_fault env w q with
    | Some e => (Throw e, {| store := store w; trace := t |})
    | None =>
        let '(a, st) := run (store w) in
        (Return a, {| store := st; trace := t |})
    end.

(** [db.query("SELECT * FROM courses")] *)
Definition select_courses (env : Env) : M (list Row) :=
  db_request env SelectCourses (fun st => (courses st, st)).

(** [db.execute("SELECT * FROM courses WHERE id = ?", [id])] *)
Definition select_course_by_id (env : Env) (id : JSValue) : M (list Row) :=
  db_request env (SelectCourseById id)
    (fun st => (filter (fun row => id_matches env (get row "id") id) (courses st), st)).

(** The row an INSERT adds: the key the store assigns, then the five
    columns the statement names. *)
Definition enrollment_row (key : Z) (name email phone status course_id : JSValue) : Row :=
  [("id", JInt key); ("name", name); ("email", email); ("phone", phone);
   ("status", status); ("course_id", course_id)].

(** [db.query("INSERT INTO enrollments ...", [name, email, phone, status, courseId])] *)
Definition insert_enrollment (env : Env) (name email phone status course_id : JSValue)
  : M ResultSetHeader :=
  db_request env (InsertEnrollment name email phone status course_id)
    (fun st =>
       let key := next_insert_id st in
       ({| insertId := key; affectedRows := 1 |},
        {| courses := courses st;
           enrollments := (enrollments st ++ [enrollment_row key name email phone status course_id])%list;
           next_insert_id := key + 1 |})).

(* ================================================================== *)
(** * [Server.js] *)
(* ================================================================== *)

(** ** [sendMailSafe] (lines 71-86) *)

Definition transporter_sendMail (t : Transport) (m : Mail) : M unit :=
  fun w =>
    let w' := {| store := store w; trace := (trace w ++ [EvSendMail m])%list |} in
    match sendMail t (trace w) m with
    | None => (Return tt, w')
    | Some e => (Throw e, w')
    end.

(** [ToString] in the process [env]. *)
Definition text_of (env : Env) (v : JSValue) : Outcome string :=
  ToString (number_text env) (stack_depth env) v.

(** A hole [${v}] of a template literal. *)
Definition template_hole (env : Env) (v : JSValue) : M string :=
  fun w => (text_of env v, w).

(** [${process.env.EMAIL_USER}]: the variable, or "undefined". *)
Definition email_user_text (env : Env) : string :=
  match EMAIL_USER env with
  | Some s => s
  | None => "undefined"
  end.

Definition sendMailSafe (env : Env) (to subject html : JSValue) : M unit :=
  emit (EvMailCall to subject html) ;;
  match transporter env with
  | None =>
      s <- template_hole env to ;;
      console_warn
        [LText ("⚠️ Skipping email to " ++ s ++ " - transporter not configured")]
  | Some t =>
      try_catch
        (transporter_sendMail t
           {| from := String dquote "Deep Learner Academy" ++ String dquote "<"
                      ++ email_user_text env ++ ">";
              to := to;
              subject := subject;
              html := html |})
        (fun err =>
           s <- template_hole env to ;;
           console_error
             [LText ("⚠️ Failed to send email to " ++ s ++ ":");
              LText (message err)])
  end.

(** ** Responses *)

Record Response : Type := mkResponse {
  status : Z;
  body : JSValue
}.

(** [res.status(code).json(payload)] *)
Definition res_status_json (code : Z) (payload : JSValue) : Response :=
  {| status := code; body := payload |}.

(** [res.json(payload)].  The answer is kept as the value handed over;
    its serialisation is taken to succeed, as it does for the rows the driver
    gives and for decoded values of ordinary depth.  (A decoded syllabus
    nested deeper than [JSON.stringify] can follow makes the handler of
    lines 98-113 answer 500 instead; the theorems on decoded values do not
    cover such text.) *)
Definition res_json (payload : JSValue) : Response := res_status_json 200 payload.

(** ** [GET /api/courses] (lines 89-96) *)

Definition get_courses (env : Env) : M Response :=
  try_catch
    (results <- select_courses env ;;
     ret (res_json (JArr (map JObj results))))
    (fun _ => ret (res_status_json 500 (JObj [("error", JStr "Database error")]))).

(** ** [GET /api/courses/:id] (lines 98-113) *)

(** [JSON.parse] as a computation that throws. *)
Definition JSON_parse_M (text : string) : M JSValue :=
  match JSON_parse text with
  | Some v => ret v
  | None => throw {| message := "SyntaxError" |}
  end.

(** Lines 105-107: the syllabus is decoded only when it is a non-empty
    string; text that does not parse becomes the empty array.  [JSON.parse]
    converts its argument to a string: under the test of line 105 the
    argument is a string, and its text is parsed as it stands. *)
Definition decode_syllabus (course : Row) : M Row :=
  let syllabus := get course "syllabus" in
  if truthy syllabus && (typeof syllabus =? "string")%string then
    try_catch
      (v <- JSON_parse_M (string_value syllabus) ;; ret (set course "syllabus" v))
      (fun _ => ret (set course "syllabus" (JArr [])))
  else ret course.

Definition get_course_by_id (env : Env) (id : string) : M Response :=
  try_catch
    (results <- select_course_by_id env (JStr id) ;;
     match results with
     | [] => ret (res_status_json 404 (JObj [("error", JStr "Course not found")]))
     | course :: _ =>
         course' <- decode_syllabus course ;;
         ret (res_json (JObj course'))
     end)
    (fun err =>
       console_error [LText "❌ Error fetching course by ID:"; LErr err] ;;
       ret (res_status_json 500 (JObj [("error", JStr "Internal server error")]))).

(** ** [POST /api/enroll] (lines 116-155) *)

Definition admin_address : JSValue := JStr "deeplearneracademy@gmail.com".

(** The text of lines 131-134 around its five holes. *)
Definition admin_text (name email phone status courseId : string) : string :=
  "<h2>" ++ name ++ " enrolled in Course ID: " ++ courseId ++ "</h2>
       <p>Email: " ++ email ++ "</p>
       <p>Phone: " ++ phone ++ "</p>
       <p>Status: " ++ status ++ "</p>".

(** The text of lines 140-143 around its two holes. *)
Definition welcome_text (name courseId : string) : string :=
  "<h2>Hi " ++ name ++ ",</h2>
       <p>You are successfully enrolled in course ID: " ++ courseId ++ "! 🎉</p>
       <p>Our team will contact you soon.</p>
       <br/>- Deep Learner Academy Team".

(** The template literal of lines 131-134: its holes are converted in
    the order they stand in. *)
Definition admin_html (env : Env) (name email phone status courseId : JSValue)
  : M string :=
  n <- template_hole env name ;;
  c <- template_hole env courseId ;;
  e <- template_hole env email ;;
  p <- template_hole env phone ;;
  s <- template_hole env status ;;
  ret (admin_text n e p s c).

(** The template literal of lines 140-143. *)
Definition welcome_html (env : Env) (name courseId : JSValue) : M string :=
  n <- template_hole env name ;;
  c <- template_hole env courseId ;;
  ret (welcome_text n c).

(** [status = "Pending"] in the destructuring pattern: the default is taken
    exactly when the property reads as [undefined]. *)
Definition default_to (d v : JSValue) : JSValue :=
  match v with
  | JUndefined => d
  | _ => v
  end.

Definition post_enroll (env : Env) (req_body : Props) : M Response :=
  let name := get req_body "name" in
  let email := get req_body "email" in
  let phone := get req_body "phone" in
  let status := default_to (JStr "Pending") (get req_body "status") in
  let courseId := get req_body "courseId" in
  if negb (truthy name) || negb (truthy email) || negb (truthy phone)
     || negb (truthy courseId)
  then
    ret (res_status_json 400
           (JObj [("success", JBool false); ("message", JStr "All fields are required")]))
  else
    try_catch
      (result <- insert_enrollment env name email phone status courseId ;;
       admin <- admin_html env name email phone status courseId ;;
       sendMailSafe env admin_address (JStr "📩 New Enrollment") (JStr admin) ;;
       welcome <- welcome_html env name courseId ;;
       sendMailSafe env email (JStr "✅ Enrollment Successful") (JStr welcome) ;;
       ret (res_status_json 201
              (JObj [("success", JBool true);
                     ("message", JStr "Enrollment successful, confirmation email sent");
                     ("enrollmentId", JInt (insertId result))])))
      (fun err =>
         console_error [LText "Enrollment Error:"; LErr err] ;;
         ret (res_status_json 500
                (JObj [("success", JBool false);
                       ("message", JStr "Server error, please try again later")]))).

(* ================================================================== *)
(** * Start-up and uploads *)
(* ================================================================== *)

(** ** The transporter at start-up (lines 57-69) *)

(** [createTransport] is a computation that yields a transport or throws;
    the variable [transporter] stays [null] when it throws. *)
Definition init_transporter (createTransport : M Transport) : M (option Transport) :=
  try_catch
    (t <- createTransport ;; ret (Some t))
    (fun err =>
       console_warn [LText "⚠️ Email transporter not configured properly:";
                     LText (message err)] ;;
       ret None).

(** The process once the transporter variable is set. *)
Definition start (createTransport : M Transport) (user : option string)
    (fault : World -> SqlStmt -> option JsError)
    (matches : JSValue -> JSValue -> bool) (num : Z -> nat -> string)
    (depth : nat) : M Env :=
  t <- init_transporter createTransport ;;
  ret {| transporter := t; EMAIL_USER := user;
         db_fault := fault; id_matches := matches; number_text := num;
         stack_depth := depth |}.

(** ** [path.extname], as Node implements it for POSIX paths *)

Module Path.

(** The variables of the scan; [-1] stands for "not seen yet". *)
Record scan : Type := mkScan {
  startDot : Z;
  startPart : Z;
  end_ : Z;
  matchedSlash : bool;
  preDotState : Z
}.

Definition scan0 : scan :=
  {| startDot := -1; startPart := 0; end_ := -1;
     matchedSlash := true; preDotState := 0 |}.

Definition is_char (code : option ascii) (c : ascii) : bool :=
  match code with
  | Some c' => (c' =? c)%char
  | None => false
  end.

(** One turn of the loop at index [i]: [inl] is [break], [inr] goes on. *)
Definition scan_step (i : nat) (code : option ascii) (st : scan) : scan + scan :=
  if is_char code "/" then
    if negb (matchedSlash st) then
      inl {| startDot := startDot st; startPart := Z.of_nat i + 1; end_ := end_ st;
             matchedSlash := matchedSlash st; preDotState := preDotState st |}
    else inr st
  else
    let st1 :=
      if end_ st =? -1 then
        {| startDot := startDot st; startPart := startPart st;
           end_ := Z.of_nat i + 1; matchedSlash := false;
           preDotState := preDotState st |}
      else st in
    if is_char code "." then
      if startDot st1 =? -1 then
        inr {| startDot := Z.of_nat i; startPart := startPart st1; end_ := end_ st1;
               matchedSlash := matchedSlash st1; preDotState := preDotState st1 |}
      else if negb (preDotState st1 =? 1) then
        inr {| startDot := startDot st1; startPart := startPart st1; end_ := end_ st1;
               matchedSlash := matchedSlash st1; preDotState := 1 |}
      else inr st1
    else if negb (startDot st1 =? -1) then
      inr {| startDot := startDot st1; startPart := startPart st1; end_ := end_ st1;
             matchedSlash := matchedSlash st1; preDotState := -1 |}
    else inr st1.

(** [for (let i = n - 1; i >= 0; --i)]. *)
Fixpoint scan_from (path : string) (n : nat) (st : scan) : scan :=
  match n with
  | O => st
  | S i =>
      match scan_step i (String.get i path) st with
      | inl st' => st'
      | inr st' => scan_from path i st'
      end
  end.

Definition extname (path : string) : string :=
  let st := scan_from path (String.length path) scan0 in
  if (startDot st =? -1) || (end_ st =? -1) || (preDotState st =? 0)
     || ((preDotState st =? 1) && (startDot st =? end_ st - 1)
         && (startDot st =? startPart st + 1))
  then ""
  else substring (Z.to_nat (startDot st)) (Z.to_nat (end_ st - startDot st)) path.

End Path.
Export Path.

(** ** The upload filter and the stored name (lines 28-39) *)

(** [toLowerCase] on the letters A-Z.  (Letters outside ASCII are left as
    they are; none of them lower-cases to a letter of the three extensions,
    so the test of line 35 is the same.) *)
Definition lower_char (c : ascii) : ascii :=
  let n := nat_of_ascii c in
  if ((65 <=? n) && (n <=? 90))%nat then ascii_of_nat (n + 32) else c.

Fixpoint toLowerCase (s : string) : string :=
  match s with
  | "" => ""
  | String c r => String (lower_char c) (toLowerCase r)
  end.

(** [list.includes(x)] for strings. *)
Definition includes (l : list string) (x : string) : bool :=
  existsb (fun y => (y =? x)%string) l.

(** What the callbacks read of multer's file object. *)
Record File : Type := mkFile { originalname : string }.

(** [fileFilter] (lines 34-37): the two arguments it passes to [cb]. *)
Definition fileFilter (file : File) : option JsError * bool :=
  let ok := includes [".pdf"; ".doc"; ".docx"]
              (toLowerCase (extname (originalname file))) in
  (if ok then None else Some {| message := "Invalid file type" |}, ok).

(** [filename] (line 30), at the time [now] that [Date.now()] reads: the
    two arguments it passes to [cb]. *)
Definition filename (now : Z) (file : File) : option JsError * string :=
  (None, number_to_string now 0 ++ extname (originalname file)).

(* ================================================================== *)
(** * Reading traces, requests and responses *)
(* ================================================================== *)

(** The calls of [sendMailSafe] in a trace, oldest first. *)
Definition mail_calls (t : list Event) : list (JSValue * JSValue * JSValue) :=
  flat_map (fun e => match e with
                     | EvMailCall a s h => [(a, s, h)]
                     | _ => []
                     end) t.

(** The messages handed to [transporter.sendMail], oldest first. *)
Definition mail_sends (t : list Event) : list Mail :=
  flat_map (fun e => match e with EvSendMail m => [m] | _ => [] end) t.

(** The statements that reached the pool, oldest first. *)
Definition db_statements (t : list Event) : list SqlStmt :=
  flat_map (fun e => match e with EvDb q => [q] | _ => [] end) t.

(** What [console.error] and [console.warn] were given, oldest first. *)
Definition errors_logged (t : list Event) : list (list LogArg) :=
  flat_map (fun e => match e with EvError a => [a] | _ => [] end) t.

Definition warnings_logged (t : list Event) : list (list LogArg) :=
  flat_map (fun e => match e with EvWarn a => [a] | _ => [] end) t.

(** The message object [sendMailSafe] builds for a call. *)
Definition envelope (env : Env) (to subject html : JSValue) : Mail :=
  {| from := String dquote "Deep Learner Academy" ++ String dquote "<"
             ++ email_user_text env ++ ">";
     to := to;
     subject := subject;
     html := html |}.

(** The four fields [POST /api/enroll] requires. *)
Definition required_fields : list string := ["name"; "email"; "phone"; "courseId"].

(** A request body without the property [k]. *)
Definition omit (k : string) (o : Props) : Props :=
  filter (fun kv => negb (fst kv =? k)%string) o.

(** The specification's wording of a field that is missing: "absent or
    empty", read as [undefined], [null] or the empty string.  This is the
    specification's notion, not the test the handler performs (that test is
    [truthy]). *)
Definition spec_absent_or_empty (v : JSValue) : bool :=
  match v with
  | JUndefined | JNull => true
  | JStr s => (s =? "")%string
  | _ => false
  end.

(** The specification's "all present and non-empty". *)
Definition spec_present_nonempty (req_body : Props) : bool :=
  forallb (fun k => negb (spec_absent_or_empty (get req_body k))) required_fields.

(** The test of line 118: every required field is truthy. *)
Definition all_truthy (req_body : Props) : bool :=
  forallb (fun k => truthy (get req_body k)) required_fields.

(** The statement [POST /api/enroll] sends for a body. *)
Definition enroll_statement (req_body : Props) : SqlStmt :=
  InsertEnrollment (get req_body "name") (get req_body "email") (get req_body "phone")
    (default_to (JStr "Pending") (get req_body "status")) (get req_body "courseId").

(** The row that statement adds under the key [key]. *)
Definition enroll_row (key : Z) (req_body : Props) : Row :=
  enrollment_row key (get req_body "name") (get req_body "email") (get req_body "phone")
    (default_to (JStr "Pending") (get req_body "status")) (get req_body "courseId").

(** The texts the holes of the two templates give for a body: its five
    fields converted to strings, or [None] when a conversion throws. *)
Record Texts : Type := mkTexts {
  t_name : string;
  t_email : string;
  t_phone : string;
  t_status : string;
  t_courseId : string
}.

Definition texts_of (env : Env) (req_body : Props) : option Texts :=
  match text_of env (get req_body "name"), text_of env (get req_body "email"),
        text_of env (get req_body "phone"),
        text_of env (default_to (JStr "Pending") (get req_body "status")),
        text_of env (get req_body "courseId") with
  | Return n, Return e, Return p, Return s, Return c =>
      Some {| t_name := n; t_email := e; t_phone := p; t_status := s; t_courseId := c |}
  | _, _, _, _, _ => None
  end.

(** The two notifications of an enrollment, as [sendMailSafe] is called. *)
Definition admin_call (tx : Texts) : JSValue * JSValue * JSValue :=
  (admin_address, JStr "📩 New Enrollment",
   JStr (admin_text (t_name tx) (t_email tx) (t_phone tx) (t_status tx)
           (t_courseId tx))).

Definition welcome_call (req_body : Props) (tx : Texts) : JSValue * JSValue * JSValue :=
  (get req_body "email", JStr "✅ Enrollment Successful",
   JStr (welcome_text (t_name tx) (t_courseId tx))).

Definition call_envelope (env : Env) (c : JSValue * JSValue * JSValue) : Mail :=
  let '(a, s, h) := c in envelope env a s h.

Definition call_event (c : JSValue * JSValue * JSValue) : Event :=
  let '(a, s, h) := c in EvMailCall a s h.

(** The three bodies [POST /api/enroll] answers with. *)
Definition enroll_created (key : Z) : Response :=
  res_status_json 201
    (JObj [("success", JBool true);
           ("message", JStr "Enrollment successful, confirmation email sent");
           ("enrollmentId", JInt key)]).

Definition enroll_rejected : Response :=
  res_status_json 400
    (JObj [("success", JBool false); ("message", JStr "All fields are required")]).

Definition enroll_failed : Response :=
  res_status_json 500
    (JObj [("success", JBool false);
           ("message", JStr "Server error, please try again later")]).

(** The store after one enrollment row was added. *)
Definition store_after_insert (st : Store) (row : Row) : Store :=
  {| courses := courses st;
     enrollments := (enrollments st ++ [row])%list;
     next_insert_id := next_insert_id st + 1 |}.

(** The same process with another mail configuration. *)
Definition with_mail (env : Env) (t : option Transport) (user : option string) : Env :=
  {| transporter := t;
     EMAIL_USER := user;
     db_fault := db_fault env;
     id_matches := id_matches env;
     number_text := number_text env;
     stack_depth := stack_depth env |}.

(** The rows a lookup by id finds, when the store answers. *)
Definition rows_with_id (env : Env) (id : string) (st : Store) : list Row :=
  filter (fun row => id_matches env (get row "id") (JStr id)) (courses st).

(** What one notification adds after its call, [s] being the text of its
    recipient: a warning without a transporter, else the send and, when it
    fails, the logged error. *)
Definition notified (env : Env) (c : JSValue * JSValue * JSValue) (s : string)
    (evs : list Event) : Prop :=
  (transporter env = None ->
     evs = [EvWarn [LText ("⚠️ Skipping email to " ++ s
                           ++ " - transporter not configured")]]) /\
  (forall t, transporter env = Some t ->
     (exists h, sendMail t h (call_envelope env c) = None /\
                evs = [EvSendMail (call_envelope env c)]) \/
     (exists h err,
        sendMail t h (call_envelope env c) = Some err /\
        evs = [EvSendMail (call_envelope env c);
               EvError [LText ("⚠️ Failed to send email to " ++ s ++ ":");
                        LText (message err)]])).


(** A row the lookup by id answers without a decoded value: its syllabus
    is no string, or the empty string, or text that does not parse. *)
Definition undecoded (course : Row) : Prop :=
  forall text, get course "syllabus" = JStr text ->
               text = "" \/ JSON_parse text = None.

(** The world once a lookup by id has reached the store. *)
Definition after_lookup (id : string) (w : World) : World :=
  {| store := store w; trace := (trace w ++ [EvDb (SelectCourseById (JStr id))])%list |}.

(** ** Sample processes and stores *)

Module Sample.

Definition same_text (column param : JSValue) : bool :=
  match ToString number_to_string 64 column, ToString number_to_string 64 param with
  | Return a, Return b => (a =? b)%string
  | _, _ => false
  end.

Definition healthy (_ : World) (_ : SqlStmt) : option JsError := None.

Definition refusing (_ : World) (_ : SqlStmt) : option JsError :=
  Some {| message := "connect ECONNREFUSED" |}.

Definition smtp_ok : Transport := {| sendMail := fun _ _ => None |}.



Definition env_no_mail : Env :=
  {| transporter := None; EMAIL_USER := None;
     db_fault := healthy; id_matches := same_text;
     number_text := number_to_string; stack_depth := 64 |}.

Definition env_mail (t : Transport) : Env :=
  {| transporter := Some t; EMAIL_USER := Some "academy@example.com";
     db_fault := healthy; id_matches := same_text;
     number_text := number_to_string; stack_depth := 64 |}.

Definition env_db_down : Env :=
  {| transporter := Some smtp_ok; EMAIL_USER := Some "academy@example.com";
     db_fault := refusing; id_matches := same_text;
     number_text := number_to_string; stack_depth := 64 |}.

Definition course_ml : Row :=
  [("id", JInt 7); ("title", JStr "Machine Learning"); ("syllabus", JStr "[1,2,3]")].

Definition course_broken : Row :=
  [("id", JInt 8); ("title", JStr "Deep Learning"); ("syllabus", JStr "{not json")].

Definition shop : Store :=
  {| courses := [course_ml; course_broken];
     enrollments := [];
     next_insert_id := 41 |}.

Definition world : World := {| store := shop; trace := [] |}.

Definition body_ok : Props :=
  [("name", JStr "Asha"); ("email", JStr "asha@example.com");
   ("phone", JStr "9876543210"); ("courseId", JInt 7)].

(** Every field is present, and the course id is the number zero. *)
Definition body_course_zero : Props :=
  [("name", JStr "Asha"); ("email", JStr "asha@example.com");
   ("phone", JStr "9876543210"); ("courseId", JInt 0)].

Definition body_no_phone : Props :=
  [("name", JStr "Asha"); ("email", JStr "asha@example.com"); ("courseId", JInt 7)].

Definition body_status_null : Props :=
  [("name", JStr "Asha"); ("email", JStr "asha@example.com");
   ("phone", JStr "9876543210"); ("status", JNull); ("courseId", JInt 7)].



(** The texts of [body_ok]. *)
Definition texts_ok : Texts :=
  {| t_name := "Asha"; t_email := "asha@example.com"; t_phone := "9876543210";
     t_status := "Pending"; t_courseId := "7" |}.

End Sample.

(** ** Reading file names *)

(** Whether the character [c] occurs in [s]. *)
Fixpoint mem_char (c : ascii) (s : string) : bool :=
  match s with
  | "" => false
  | String c' r => (c' =? c)%char || mem_char c r
  end.

(** The scan once a first character that is no separator is seen at
    [m - 1]: [end] is set, unless it was set before. *)
Definition see_end (m : Z) (st : scan) : scan :=
  if end_ st =? -1 then
    {| startDot := startDot st; startPart := startPart st; end_ := m;
       matchedSlash := false; preDotState := preDotState st |}
  else st.

(** ** More samples *)

Module Fixture.

(** A row whose syllabus the driver has already decoded (a JSON column). *)
Definition course_decoded : Row :=
  [("id", JInt 9); ("title", JStr "Vision");
   ("syllabus", JArr [JStr "CNN"; JStr "ViT"])].

Definition course_draft : Row :=
  [("id", JInt 10); ("title", JStr "Draft"); ("syllabus", JStr "")].

Definition catalogue : Store :=
  {| courses := [course_decoded; course_draft];
     enrollments := [];
     next_insert_id := 1 |}.

End Fixture.

(* ================================================================== *)
(** * Properties of the JavaScript fragment *)
(* ================================================================== *)

(** ** The fragment at work *)

Example truthy_samples :
  truthy (JInt 0) = false /\ truthy (JBool false) = false /\
  truthy (JStr "") = false /\ truthy JNull = false /\ truthy JUndefined = false /\
  truthy (JStr "0") = true /\ truthy (JArr []) = true /\ truthy (JObj []) = true.
Proof. repeat split. Qed.

Example ToString_samples :
  ToString number_to_string 8 (JInt 42) = Return "42" /\
  ToString number_to_string 8 (JNum (-5) 2) = Return "-0.05" /\
  ToString number_to_string 8 (JNum 150 2) = Return "1.5" /\
  ToString number_to_string 8
    (JArr [JInt 1; JNull; JStr "a"; JArr [JInt 2; JInt 3]]) = Return "1,,a,2,3" /\
  ToString number_to_string 8 (JObj [("a", JInt 1)]) = Return "[object Object]" /\
  ToString number_to_string 8 (JObj [("toString", JInt 1)]) = Throw type_error /\
  ToString number_to_string 8 (JArr [JStr "a"; JObj [("toString", JNull)]])
    = Throw type_error /\
  ToString number_to_string 2 (JArr [JArr [JArr []]]) = Throw range_error /\
  ToString number_to_string 3 (JArr [JArr [JArr []]]) = Return "".
Proof. repeat split. Qed.

Example JSON_parse_samples :
  JSON_parse "[1,2,3]" = Some (JArr [JInt 1; JInt 2; JInt 3]) /\
  JSON_parse "{not json" = None /\
  JSON_parse " [1.50, -2e2, 3E-2, true, null, [], {}] "
    = Some (JArr [JNum 15 1; JInt (-200); JNum 3 2; JBool true; JNull;
                  JArr []; JObj []]) /\
  JSON_parse "[1,]" = None /\ JSON_parse "01" = None /\ JSON_parse "" = None /\
  JSON_parse "[1] x" = None /\ JSON_parse "nul" = None.
Proof. repeat split. Qed.

Example JSON_parse_object :
  JSON_parse ("{" ++ String dquote "week" ++ String dquote ":1,"
                  ++ String dquote "topics" ++ String dquote ":["
                  ++ String dquote "CNN\u0073" ++ String dquote "]}")
  = Some (JObj [("week", JInt 1); ("topics", JArr [JStr "CNNs"])]).
Proof. reflexivity. Qed.

Section PropsFacts.

Lemma get_set_same (o : Props) (k : string) (v : JSValue) :
  get (set o k v) k = v.
Proof.
  induction o as [|[k' v'] o IH]; simpl.
  - now rewrite String.eqb_refl.
  - destruct (k' =? k)%string eqn:E; simpl; rewrite E; auto.
Qed.

Lemma get_set_other (o : Props) (k k2 : string) (v : JSValue) :
  k2 <> k -> get (set o k v) k2 = get o k2.
Proof.
  intros Hne.
  induction o as [|[k' v'] o IH]; simpl.
  - destruct (k =? k2)%string eqn:E; auto.
    apply String.eqb_eq in E. congruence.
  - destruct (k' =? k)%string eqn:E; simpl.
    + apply String.eqb_eq in E. subst k'.
      destruct (k =? k2)%string eqn:E2; auto.
      apply String.eqb_eq in E2. congruence.
    + destruct (k' =? k2)%string; auto.
Qed.

End PropsFacts.

(** ** [JSON.parse] always answers *)

Section ParserTotal.

Local Open Scope nat_scope.

Lemma skip_ws_length (s : string) : String.length (skip_ws s) <= String.length s.
Proof.
  induction s as [|c r IH]; simpl; auto.
  destruct (is_ws c); simpl; lia.
Qed.

Lemma drop_length (n : nat) (s : string) : String.length (drop n s) <= String.length s.
Proof.
  revert s. induction n as [|n IH]; intros [|c r]; simpl; auto.
Qed.

Lemma drop_cons_length (n : nat) (c : ascii) (s : string) :
  String.length (drop (S n) (String c s)) <= String.length s.
Proof. simpl. apply drop_length. Qed.

Local Arguments drop : simpl never.

Lemma parse_digits_length (s : string) :
  forall acc cnt v cnt' r,
    parse_digits s acc cnt = (v, cnt', r) -> String.length r <= String.length s.
Proof.
  induction s as [|c s IH]; simpl; intros acc cnt v cnt' r H.
  - inversion H; subst; simpl; lia.
  - destruct (digit_of c).
    + apply IH in H. lia.
    + inversion H; subst; simpl; lia.
Qed.

Lemma parse_int_length (s : string) (v : Z) (r : string) :
  parse_int s = Some (v, r) -> String.length r < String.length s.
Proof.
  destruct s as [|c s]; simpl; [discriminate|].
  destruct (digit_of c) as [d|]; [|discriminate].
  destruct (d =? 0)%Z.
  - intros H; inversion H; subst; lia.
  - destruct (parse_digits s d 1) as [[v' n'] r'] eqn:E.
    intros H; inversion H; subst.
    apply parse_digits_length in E. lia.
Qed.

Lemma parse_frac_length (s : string) (m m' : Z) (k : nat) (r : string) :
  parse_frac s m = Some (m', k, r) -> String.length r <= String.length s.
Proof.
  destruct s as [|c s]; simpl.
  - intros H; inversion H; subst; simpl; lia.
  - destruct (c =? ".")%char.
    + destruct (parse_digits s m 0) as [[v n] r'] eqn:E.
      destruct n; [discriminate|].
      intros H; inversion H; subst.
      apply parse_digits_length in E. lia.
    + intros H; inversion H; subst; simpl; lia.
Qed.

Lemma exp_sign_length (s : string) (neg : bool) (r : string) :
  exp_sign s = (neg, r) -> String.length r <= String.length s.
Proof.
  destruct s as [|c s]; simpl.
  - intros H; inversion H; subst; simpl; lia.
  - destruct (c =? "-")%char; [|destruct (c =? "+")%char];
      intros H; inversion H; subst; simpl; lia.
Qed.

Lemma minus_sign_length (s : string) (neg : bool) (r : string) :
  minus_sign s = (neg, r) -> String.length r <= String.length s.
Proof.
  destruct s as [|c s]; simpl.
  - intros H; inversion H; subst; simpl; lia.
  - destruct (c =? "-")%char; intros H; inversion H; subst; simpl; lia.
Qed.

Lemma parse_exp_length (s : string) (e : Z) (r : string) :
  parse_exp s = Some (e, r) -> String.length r <= String.length s.
Proof.
  destruct s as [|c s]; simpl.
  - intros H; inversion H; subst; simpl; lia.
  - destruct ((c =? "e") || (c =? "E"))%char.
    + destruct (exp_sign s) as [neg r1] eqn:Es.
      apply exp_sign_length in Es.
      destruct (parse_digits r1 0 0) as [[v n] r2] eqn:E.
      destruct n; [discriminate|].
      intros H; inversion H; subst.
      apply parse_digits_length in E. lia.
    + intros H; inversion H; subst; simpl; lia.
Qed.

Lemma parse_number_length (s : string) (v : JSValue) (r : string) :
  parse_number s = Some (v, r) -> String.length r < String.length s.
Proof.
  unfold parse_number.
  destruct (minus_sign s) as [neg s1] eqn:E1.
  apply minus_sign_length in E1.
  destruct (parse_int s1) as [[i s2]|] eqn:E2; [|discriminate].
  destruct (parse_frac s2 i) as [[[m k] s3]|] eqn:E3; [|discriminate].
  destruct (parse_exp s3) as [[e s4]|] eqn:E4; [|discriminate].
  intros H; inversion H; subst.
  apply parse_int_length in E2.
  apply parse_frac_length in E3.
  apply parse_exp_length in E4. lia.
Qed.

Lemma parse_chars_length (n : nat) :
  forall s acc items r,
    String.length s <= n ->
    parse_chars s acc = Some (items, r) -> String.length r < String.length s.
Proof.
  induction n as [|n IH]; intros s acc items r Hn.
  - destruct s; simpl in *; [discriminate|lia].
  - destruct s as [|c s]; simpl; [discriminate|].
    simpl in Hn.
    destruct (c =? dquote)%char.
    { intros H; inversion H; subst; lia. }
    destruct (c =? backslash)%char.
    { destruct s as [|e r1]; [discriminate|].
      destruct (e =? "u")%char.
      - destruct r1 as [|h1 [|h2 [|h3 [|h4 r2]]]]; try discriminate.
        destruct (hex4 h1 h2 h3 h4); [|discriminate].
        intros H. apply IH in H; simpl in *; lia.
      - destruct (simple_escape e); [|discriminate].
        intros H. apply IH in H; simpl in *; lia. }
    destruct (nat_of_ascii c <? 32); [discriminate|].
    intros H. apply IH in H; simpl in *; lia.
Qed.

Lemma parse_string_length (s str r : string) :
  parse_string s = Some (str, r) -> String.length r < String.length s.
Proof.
  unfold parse_string.
  destruct (parse_chars s []) as [[items r']|] eqn:E; [|discriminate].
  intros H; inversion H; subst.
  eapply parse_chars_length; eauto.
Qed.

Lemma parse_progress (fuel : nat) :
  (forall s v r, parse_value fuel s = Parsed v r -> String.length r < String.length s) /\
  (forall s acc v r,
      parse_elements fuel s acc = Parsed v r -> String.length r < String.length s) /\
  (forall s acc v r,
      parse_members fuel s acc = Parsed v r -> String.length r < String.length s).
Proof.
  induction fuel as [|fuel (IHv & IHe & IHm)].
  - repeat split; intros; discriminate.
  - repeat split.
    + intros s v r. simpl.
      pose proof (skip_ws_length s) as Hs.
      destruct (skip_ws s) as [|c r0] eqn:E0; [discriminate|].
      simpl in Hs.
      destruct (c =? "{")%char.
      { pose proof (skip_ws_length r0) as Hr0.
        destruct (skip_ws r0) as [|c2 r2] eqn:E2; [discriminate|].
        simpl in Hr0.
        destruct (c2 =? "}")%char.
        - intros H; inversion H; subst; lia.
        - intros H; apply IHm in H; lia. }
      destruct (c =? "[")%char.
      { pose proof (skip_ws_length r0) as Hr0.
        destruct (skip_ws r0) as [|c2 r2] eqn:E2; [discriminate|].
        simpl in Hr0.
        destruct (c2 =? "]")%char.
        - intros H; inversion H; subst; lia.
        - intros H; apply IHe in H; lia. }
      destruct (c =? dquote)%char.
      { destruct (parse_string r0) as [[str r']|] eqn:Es; [|discriminate].
        apply parse_string_length in Es.
        intros H; inversion H; subst; lia. }
      destruct (prefix "true" (String c r0)).
      { intros H; inversion H; subst.
        pose proof (drop_cons_length 3 c r0). lia. }
      destruct (prefix "false" (String c r0)).
      { intros H; inversion H; subst.
        pose proof (drop_cons_length 4 c r0). lia. }
      destruct (prefix "null" (String c r0)).
      { intros H; inversion H; subst.
        pose proof (drop_cons_length 3 c r0). lia. }
      destruct (parse_number (String c r0)) as [[v' r']|] eqn:En; [|discriminate].
      apply parse_number_length in En. simpl in En.
      intros H; inversion H; subst; lia.
    + intros s acc v r. simpl.
      destruct (parse_value fuel s) as [v1 r1| |] eqn:Ev; try discriminate.
      apply IHv in Ev.
      pose proof (skip_ws_length r1) as Hr1.
      destruct (skip_ws r1) as [|c r'] eqn:E1; [discriminate|].
      simpl in Hr1.
      destruct (c =? ",")%char.
      { intros H; apply IHe in H; lia. }
      destruct (c =? "]")%char; [|discriminate].
      intros H; inversion H; subst; lia.
    + intros s acc v r. simpl.
      pose proof (skip_ws_length s) as Hs.
      destruct (skip_ws s) as [|c r0] eqn:E0; [discriminate|].
      simpl in Hs.
      destruct (c =? dquote)%char; [|discriminate].
      destruct (parse_string r0) as [[k r1]|] eqn:Es; [|discriminate].
      apply parse_string_length in Es.
      pose proof (skip_ws_length r1) as Hr1.
      destruct (skip_ws r1) as [|c1 r2] eqn:E1; [discriminate|].
      simpl in Hr1.
      destruct (c1 =? ":")%char; [|discriminate].
      destruct (parse_value fuel r2) as [v3 r3| |] eqn:Ev; try discriminate.
      apply IHv in Ev.
      pose proof (skip_ws_length r3) as Hr3.
      destruct (skip_ws r3) as [|c3 r4] eqn:E3; [discriminate|].
      simpl in Hr3.
      destruct (c3 =? ",")%char.
      { intros H; apply IHm in H; lia. }
      destruct (c3 =? "}")%char; [|discriminate].
      intros H; inversion H; subst; lia.
Qed.

Lemma parse_fuel_enough (fuel : nat) :
  (forall s, 2 * String.length s + 1 <= fuel -> parse_value fuel s <> OutOfFuel) /\
  (forall s acc,
      2 * String.length s + 2 <= fuel -> parse_elements fuel s acc <> OutOfFuel) /\
  (forall s acc,
      2 * String.length s + 2 <= fuel -> parse_members fuel s acc <> OutOfFuel).
Proof.
  induction fuel as [|fuel (IHv & IHe & IHm)].
  - repeat split; intros; lia.
  - destruct (parse_progress fuel) as (Pv & _ & _).
    repeat split.
    + intros s Hf. simpl.
      pose proof (skip_ws_length s) as Hs.
      destruct (skip_ws s) as [|c r0] eqn:E0; [discriminate|].
      simpl in Hs.
      destruct (c =? "{")%char.
      { destruct (skip_ws r0) as [|c2 r2] eqn:E2; [discriminate|].
        destruct (c2 =? "}")%char; [discriminate|].
        apply IHm. lia. }
      destruct (c =? "[")%char.
      { destruct (skip_ws r0) as [|c2 r2] eqn:E2; [discriminate|].
        destruct (c2 =? "]")%char; [discriminate|].
        apply IHe. lia. }
      destruct (c =? dquote)%char.
      { destruct (parse_string r0) as [[str r']|]; discriminate. }
      destruct (prefix "true" (String c r0)); [discriminate|].
      destruct (prefix "false" (String c r0)); [discriminate|].
      destruct (prefix "null" (String c r0)); [discriminate|].
      destruct (parse_number (String c r0)) as [[v' r']|]; discriminate.
    + intros s acc Hf. simpl.
      assert (Hv : parse_value fuel s <> OutOfFuel) by (apply IHv; lia).
      destruct (parse_value fuel s) as [v1 r1| |] eqn:Ev;
        [|discriminate|congruence].
      apply Pv in Ev.
      pose proof (skip_ws_length r1) as Hr1.
      destruct (skip_ws r1) as [|c r'] eqn:E1; [discriminate|].
      simpl in Hr1.
      destruct (c =? ",")%char.
      { apply IHe. lia. }
      destruct (c =? "]")%char; discriminate.
    + intros s acc Hf. simpl.
      pose proof (skip_ws_length s) as Hs.
      destruct (skip_ws s) as [|c r0] eqn:E0; [discriminate|].
      simpl in Hs.
      destruct (c =? dquote)%char; [|discriminate].
      destruct (parse_string r0) as [[k r1]|] eqn:Es; [|discriminate].
      apply parse_string_length in Es.
      pose proof (skip_ws_length r1) as Hr1.
      destruct (skip_ws r1) as [|c1 r2] eqn:E1; [discriminate|].
      simpl in Hr1.
      destruct (c1 =? ":")%char; [|discriminate].
      assert (Hv : parse_value fuel r2 <> OutOfFuel) by (apply IHv; lia).
      destruct (parse_value fuel r2) as [v3 r3| |] eqn:Ev;
        [|discriminate|congruence].
      apply Pv in Ev.
      pose proof (skip_ws_length r3) as Hr3.
      destruct (skip_ws r3) as [|c3 r4] eqn:E3; [discriminate|].
      simpl in Hr3.
      destruct (c3 =? ",")%char.
      { apply IHm. lia. }
      destruct (c3 =? "}")%char; discriminate.
Qed.

(** The budget of [JSON_parse] is never exhausted: its [None] is always a
    syntax error of the text. *)
Lemma parse_value_total (text : string) :
  parse_value (fuel_for text) text <> OutOfFuel.
Proof.
  apply (proj1 (parse_fuel_enough (fuel_for text))).
  unfold fuel_for. lia.
Qed.

End ParserTotal.

(* ================================================================== *)
(** * Properties of the server *)
(* ================================================================== *)

(** ** Traces *)

Section TraceFacts.

Lemma mail_calls_app (t u : list Event) :
  mail_calls (t ++ u) = (mail_calls t ++ mail_calls u)%list.
Proof. apply flat_map_app. Qed.

Lemma mail_sends_app (t u : list Event) :
  mail_sends (t ++ u) = (mail_sends t ++ mail_sends u)%list.
Proof. apply flat_map_app. Qed.

Lemma db_statements_app (t u : list Event) :
  db_statements (t ++ u) = (db_statements t ++ db_statements u)%list.
Proof. apply flat_map_app. Qed.

Lemma errors_logged_app (t u : list Event) :
  errors_logged (t ++ u) = (errors_logged t ++ errors_logged u)%list.
Proof. apply flat_map_app. Qed.

Lemma mail_calls_db (q : SqlStmt) (t : list Event) :
  mail_calls (EvDb q :: t) = mail_calls t.
Proof. reflexivity. Qed.

Lemma mail_sends_db (q : SqlStmt) (t : list Event) :
  mail_sends (EvDb q :: t) = mail_sends t.
Proof. reflexivity. Qed.

Lemma db_statements_db (q : SqlStmt) (t : list Event) :
  db_statements (EvDb q :: t) = q :: db_statements t.
Proof. reflexivity. Qed.

Lemma mail_calls_call (c : JSValue * JSValue * JSValue) (t : list Event) :
  mail_calls (call_event c :: t) = c :: mail_calls t.
Proof. destruct c as [[a s] h]. reflexivity. Qed.

Lemma mail_sends_call (c : JSValue * JSValue * JSValue) (t : list Event) :
  mail_sends (call_event c :: t) = mail_sends t.
Proof. destruct c as [[a s] h]. reflexivity. Qed.

Lemma db_statements_call (c : JSValue * JSValue * JSValue) (t : list Event) :
  db_statements (call_event c :: t) = db_statements t.
Proof. destruct c as [[a s] h]. reflexivity. Qed.

End TraceFacts.

(** ** Validation *)

Section Validation.

Lemma spec_absent_or_empty_falsy (v : JSValue) :
  spec_absent_or_empty v = true -> truthy v = false.
Proof.
  destruct v; simpl; try discriminate; auto.
  intros ->. reflexivity.
Qed.

Lemma all_truthy_fields (req_body : Props) :
  all_truthy req_body = true ->
  truthy (get req_body "name") = true /\ truthy (get req_body "email") = true /\
  truthy (get req_body "phone") = true /\ truthy (get req_body "courseId") = true.
Proof.
  unfold all_truthy, required_fields. simpl.
  rewrite !andb_true_iff. tauto.
Qed.

Lemma get_omit (k : string) (o : Props) : get (omit k o) k = JUndefined.
Proof.
  induction o as [|[k' v] o IH]; simpl; auto.
  destruct (k' =? k)%string eqn:E; simpl; auto.
  now rewrite E.
Qed.

(** Line 118: one falsy required field is enough for the 400 answer, and
    nothing else happens. *)
Lemma falsy_field_rejected (env : Env) (req_body : Props) (w : World) (k : string) :
  In k required_fields ->
  truthy (get req_body k) = false ->
  post_enroll env req_body w = (Return enroll_rejected, w).
Proof.
  intros Hin Hf. unfold post_enroll.
  assert (Hguard : negb (truthy (get req_body "name"))
                   || negb (truthy (get req_body "email"))
                   || negb (truthy (get req_body "phone"))
                   || negb (truthy (get req_body "courseId")) = true).
  { simpl in Hin.
    destruct Hin as [<-|[<-|[<-|[<-|[]]]]]; rewrite Hf; simpl;
      rewrite ?orb_true_r; reflexivity. }
  rewrite Hguard. reflexivity.
Qed.

End Validation.

(** ** Template literals *)

Section TemplateFacts.

Variable env : Env.

(** The texts of a body are the conversions of its five fields. *)
Lemma texts_of_fields (req_body : Props) (tx : Texts) :
  texts_of env req_body = Some tx ->
  text_of env (get req_body "name") = Return (t_name tx) /\
  text_of env (get req_body "email") = Return (t_email tx) /\
  text_of env (get req_body "phone") = Return (t_phone tx) /\
  text_of env (default_to (JStr "Pending") (get req_body "status"))
    = Return (t_status tx) /\
  text_of env (get req_body "courseId") = Return (t_courseId tx).
Proof.
  unfold texts_of.
  destruct (text_of env (get req_body "name")); [|discriminate].
  destruct (text_of env (get req_body "email")); [|discriminate].
  destruct (text_of env (get req_body "phone")); [|discriminate].
  destruct (text_of env (default_to (JStr "Pending") (get req_body "status")));
    [|discriminate].
  destruct (text_of env (get req_body "courseId")); [|discriminate].
  intros [= <-]. repeat split.
Qed.

(** Lines 131-134 with five fields that convert. *)
Lemma admin_html_texts (req_body : Props) (tx : Texts) (w : World) :
  texts_of env req_body = Some tx ->
  admin_html env (get req_body "name") (get req_body "email") (get req_body "phone")
    (default_to (JStr "Pending") (get req_body "status")) (get req_body "courseId") w
  = (Return (admin_text (t_name tx) (t_email tx) (t_phone tx) (t_status tx)
               (t_courseId tx)), w).
Proof.
  intros H. destruct (texts_of_fields _ _ H) as (Hn & He & Hp & Hs & Hc).
  unfold admin_html, bind, template_hole.
  rewrite Hn, Hc, He, Hp, Hs. reflexivity.
Qed.

(** Lines 131-134 with a field that does not convert: the error of the
    conversion is thrown before anything else happens. *)
Lemma admin_html_throws (req_body : Props) (w : World) :
  texts_of env req_body = None ->
  exists err,
    admin_html env (get req_body "name") (get req_body "email") (get req_body "phone")
      (default_to (JStr "Pending") (get req_body "status")) (get req_body "courseId") w
    = (Throw err, w).
Proof.
  unfold texts_of, admin_html, bind, template_hole.
  destruct (text_of env (get req_body "name"));
    destruct (text_of env (get req_body "email"));
    destruct (text_of env (get req_body "phone"));
    destruct (text_of env (default_to (JStr "Pending") (get req_body "status")));
    destruct (text_of env (get req_body "courseId"));
    intros H; try discriminate H; eexists; reflexivity.
Qed.

(** Lines 140-143 with fields that convert. *)
Lemma welcome_html_texts (req_body : Props) (tx : Texts) (w : World) :
  texts_of env req_body = Some tx ->
  welcome_html env (get req_body "name") (get req_body "courseId") w
  = (Return (welcome_text (t_name tx) (t_courseId tx)), w).
Proof.
  intros H. destruct (texts_of_fields _ _ H) as (Hn & _ & _ & _ & Hc).
  unfold welcome_html, bind, template_hole.
  rewrite Hn, Hc. reflexivity.
Qed.

End TemplateFacts.

(** ** [sendMailSafe] *)

Section MailFacts.

Variable env : Env.

(** One call for a recipient that converts to the text [s], event by
    event: it returns and leaves the store alone. *)
Lemma sendMailSafe_report (to subject html : JSValue) (s : string) (w : World) :
  text_of env to = Return s ->
  exists evs,
    sendMailSafe env to subject html w =
      (Return tt,
       {| store := store w;
          trace := (trace w ++ EvMailCall to subject html :: evs)%list |}) /\
    (transporter env = None ->
       evs = [EvWarn [LText ("⚠️ Skipping email to " ++ s
                             ++ " - transporter not configured")]]) /\
    (forall t, transporter env = Some t ->
       (sendMail t (trace w ++ [EvMailCall to subject html])
          (envelope env to subject html) = None /\
        evs = [EvSendMail (envelope env to subject html)]) \/
       (exists err,
          sendMail t (trace w ++ [EvMailCall to subject html])
            (envelope env to subject html) = Some err /\
          evs = [EvSendMail (envelope env to subject html);
                 EvError [LText ("⚠️ Failed to send email to " ++ s ++ ":");
                          LText (message err)]])).
Proof.
  intros Hs. unfold sendMailSafe, bind, emit, template_hole. rewrite Hs.
  destruct (transporter env) as [t|].
  - unfold try_catch, transporter_sendMail. cbn [trace store].
    fold (envelope env to subject html).
    destruct (sendMail t (trace w ++ [EvMailCall to subject html])
                (envelope env to subject html)) as [err|] eqn:Esend.
    + eexists. split.
      { unfold ret, console_error, emit. cbn [trace store].
        rewrite <- !app_assoc. reflexivity. }
      split; [discriminate|].
      intros t' Ht'. injection Ht' as <-. right. exists err. auto.
    + eexists. split.
      { rewrite <- !app_assoc. reflexivity. }
      split; [discriminate|].
      intros t' Ht'. injection Ht' as <-. left. auto.
  - eexists. split.
    { unfold ret, console_warn, emit. cbn [trace store].
      rewrite <- !app_assoc. reflexivity. }
    split; [reflexivity|discriminate].
Qed.

(** The same for a call written as a triple. *)
Lemma sendMailSafe_notified (c : JSValue * JSValue * JSValue) (s : string) (w : World) :
  text_of env (fst (fst c)) = Return s ->
  exists evs,
    sendMailSafe env (fst (fst c)) (snd (fst c)) (snd c) w =
      (Return tt,
       {| store := store w; trace := (trace w ++ call_event c :: evs)%list |}) /\
    notified env c s evs.
Proof.
  destruct c as [[a sub] h]. cbn [fst snd]. intros Hs.
  destruct (sendMailSafe_report a sub h s w Hs) as (evs & E & N & S).
  exists evs. split; [exact E|]. split; [exact N|].
  intros t Ht. cbn [call_envelope].
  destruct (S t Ht) as [[Hsend Hev]|(err & Hsend & Hev)].
  - left. eexists. split; [exact Hsend|exact Hev].
  - right. eexists. exists err. split; [exact Hsend|exact Hev].
Qed.

(** What a notification adds holds no further call and no statement, and
    a send exactly when a transporter is configured. *)
Lemma notified_reads (c : JSValue * JSValue * JSValue) (s : string) (evs : list Event) :
  notified env c s evs ->
  mail_calls evs = [] /\
  db_statements evs = [] /\
  mail_sends evs =
    match transporter env with
    | None => []
    | Some _ => [call_envelope env c]
    end.
Proof.
  intros [N S].
  destruct (transporter env) as [t|].
  - destruct (S t eq_refl) as [(h & _ & ->)|(h & err & _ & ->)]; repeat split.
  - rewrite (N eq_refl). repeat split.
Qed.

End MailFacts.

(** ** [POST /api/enroll] *)

Section EnrollFacts.

Variable env : Env.
Variable req_body : Props.
Variable w : World.

Hypothesis valid : all_truthy req_body = true.

(** The store takes the row and the five fields convert: both
    notifications are called, in order, and the answer is 201 with the key
    of the row. *)
Lemma post_enroll_accepted_trace (tx : Texts) :
  db_fault env w (enroll_statement req_body) = None ->
  texts_of env req_body = Some tx ->
  exists evs1 evs2,
    post_enroll env req_body w =
      (Return (enroll_created (next_insert_id (store w))),
       {| store := store_after_insert (store w)
                     (enroll_row (next_insert_id (store w)) req_body);
          trace := (trace w ++ EvDb (enroll_statement req_body)
                      :: call_event (admin_call tx) :: evs1
                      ++ call_event (welcome_call req_body tx) :: evs2)%list |}) /\
    notified env (admin_call tx) "deeplearneracademy@gmail.com" evs1 /\
    notified env (welcome_call req_body tx) (t_email tx) evs2.
Proof.
  intros Hdb Htx.
  destruct (all_truthy_fields _ valid) as (Hn & He & Hp & Hc).
  destruct (texts_of_fields env _ _ Htx) as (_ & Te & _).
  unfold post_enroll. rewrite Hn, He, Hp, Hc. cbn [negb orb].
  unfold try_catch, bind, insert_enrollment, db_request.
  change (InsertEnrollment _ _ _ _ _) with (enroll_statement req_body).
  rewrite Hdb.
  rewrite (admin_html_texts env req_body tx _ Htx).
  match goal with
  | |- context [sendMailSafe env _ _ _ ?w1] =>
      destruct (sendMailSafe_notified env (admin_call tx)
                  "deeplearneracademy@gmail.com" w1 eq_refl) as (evs1 & E1 & N1)
  end.
  cbn [admin_call fst snd] in E1. rewrite E1.
  rewrite (welcome_html_texts env req_body tx _ Htx).
  match goal with
  | |- context [sendMailSafe env _ _ _ ?w1] =>
      destruct (sendMailSafe_notified env (welcome_call req_body tx)
                  (t_email tx) w1 Te) as (evs2 & E2 & N2)
  end.
  cbn [welcome_call fst snd] in E2. rewrite E2.
  exists evs1, evs2. cbn [store trace].
  split; [|split; assumption].
  unfold ret, enroll_created, store_after_insert, enroll_row. cbn [insertId].
  f_equal. f_equal.
  rewrite <- !app_assoc. reflexivity.
Qed.

(** What the accepted path leaves behind, read off the trace. *)
Lemma post_enroll_accepted_summary (tx : Texts) :
  db_fault env w (enroll_statement req_body) = None ->
  texts_of env req_body = Some tx ->
  exists w',
    post_enroll env req_body w =
      (Return (enroll_created (next_insert_id (store w))), w') /\
    store w' = store_after_insert (store w)
                 (enroll_row (next_insert_id (store w)) req_body) /\
    db_statements (trace w') =
      (db_statements (trace w) ++ [enroll_statement req_body])%list /\
    mail_calls (trace w') =
      (mail_calls (trace w) ++ [admin_call tx; welcome_call req_body tx])%list /\
    mail_sends (trace w') =
      (mail_sends (trace w) ++
         match transporter env with
         | None => []
         | Some _ => [call_envelope env (admin_call tx);
                      call_envelope env (welcome_call req_body tx)]
         end)%list.
Proof.
  intros Hdb Htx.
  destruct (post_enroll_accepted_trace tx Hdb Htx) as (evs1 & evs2 & E & N1 & N2).
  destruct (notified_reads env _ _ _ N1) as (C1 & D1 & S1).
  destruct (notified_reads env _ _ _ N2) as (C2 & D2 & S2).
  eexists. split; [exact E|]. cbn [store trace].
  split; [reflexivity|].
  split; [|split].
  - rewrite db_statements_app, db_statements_db.
    rewrite db_statements_call, db_statements_app, db_statements_call, D1, D2.
    reflexivity.
  - rewrite mail_calls_app, mail_calls_db.
    rewrite mail_calls_call, mail_calls_app, mail_calls_call, C1, C2.
    reflexivity.
  - rewrite mail_sends_app, mail_sends_db.
    rewrite mail_sends_call, mail_sends_app, mail_sends_call, S1, S2.
    destruct (transporter env); reflexivity.
Qed.

(** The store refuses the row: the error is logged, the answer is 500, and
    [sendMailSafe] is never entered. *)
Lemma post_enroll_refused (err : JsError) :
  db_fault env w (enroll_statement req_body) = Some err ->
  post_enroll env req_body w =
    (Return enroll_failed,
     {| store := store w;
        trace := (trace w ++ [EvDb (enroll_statement req_body);
                              EvError [LText "Enrollment Error:"; LErr err]])%list |}).
Proof.
  intros Hdb.
  destruct (all_truthy_fields _ valid) as (Hn & He & Hp & Hc).
  unfold post_enroll. rewrite Hn, He, Hp, Hc. cbn [negb orb].
  unfold try_catch, bind, insert_enrollment, db_request.
  change (InsertEnrollment _ _ _ _ _) with (enroll_statement req_body).
  rewrite Hdb.
  unfold console_error, emit, ret, enroll_failed. cbn [store trace].
  rewrite <- !app_assoc. reflexivity.
Qed.

(** The store takes the row and a field does not convert: the template of
    lines 131-134 throws inside the [try], so the row stays stored, the
    error of the conversion is logged, the answer is 500 and [sendMailSafe]
    is never entered. *)
Lemma post_enroll_unprintable :
  db_fault env w (enroll_statement req_body) = None ->
  texts_of env req_body = None ->
  exists err,
    post_enroll env req_body w =
      (Return enroll_failed,
       {| store := store_after_insert (store w)
                     (enroll_row (next_insert_id (store w)) req_body);
          trace := (trace w ++ [EvDb (enroll_statement req_body);
                                EvError [LText "Enrollment Error:";
                                         LErr err]])%list |}).
Proof.
  intros Hdb Htx.
  destruct (all_truthy_fields _ valid) as (Hn & He & Hp & Hc).
  unfold post_enroll. rewrite Hn, He, Hp, Hc. cbn [negb orb].
  unfold try_catch, bind, insert_enrollment, db_request.
  change (InsertEnrollment _ _ _ _ _) with (enroll_statement req_body).
  rewrite Hdb.
  match goal with
  | |- context [admin_html env _ _ _ _ _ ?w1] =>
      destruct (admin_html_throws env req_body w1 Htx) as (err & Ethrow)
  end.
  rewrite Ethrow. exists err.
  unfold console_error, emit, ret, enroll_failed, store_after_insert, enroll_row.
  cbn [store trace].
  rewrite <- !app_assoc. reflexivity.
Qed.

End EnrollFacts.

(** ** The enrollment endpoint, claim by claim *)

(** C1, as stated, fails: a body whose four required fields are all present
    and non-empty, with the course id the number 0, is answered 400 and
    nothing is stored. *)
Lemma enroll_course_zero_rejected :
  spec_present_nonempty Sample.body_course_zero = true /\
  post_enroll (Sample.env_mail Sample.smtp_ok) Sample.body_course_zero Sample.world
    = (Return enroll_rejected, Sample.world) /\
  status enroll_rejected = 400.
Proof. repeat split. Qed.

(** C1 (amended): for every enrollment submission whose name, email, phone
    and courseId are all truthy, whose five fields (status included) convert
    to strings, and whose INSERT the store accepts, the handler sends exactly
    one statement, adds exactly one enrollment row and answers 201 with
    success:true and the key the store assigned as enrollmentId; answer and
    store are the same for every mail configuration: none, working or
    failing. *)
Theorem enroll_truthy_created (env : Env) (req_body : Props) (w : World) (tx : Texts) :
  all_truthy req_body = true ->
  db_fault env w (enroll_statement req_body) = None ->
  texts_of env req_body = Some tx ->
  forall (t : option Transport) (user : option string),
  exists w',
    post_enroll (with_mail env t user) req_body w =
      (Return (enroll_created (next_insert_id (store w))), w') /\
    courses (store w') = courses (store w) /\
    enrollments (store w') =
      (enrollments (store w) ++ [enroll_row (next_insert_id (store w)) req_body])%list /\
    db_statements (trace w') =
      (db_statements (trace w) ++ [enroll_statement req_body])%list.
Proof.
  intros Hvalid Hdb Htx t user.
  destruct (post_enroll_accepted_summary (with_mail env t user) req_body w Hvalid
              tx Hdb Htx)
    as (w' & E & Hst & Hq & _).
  exists w'. rewrite Hst. repeat split; assumption.
Qed.

Lemma enroll_truthy_created_witness :
  all_truthy Sample.body_ok = true /\
  texts_of Sample.env_no_mail Sample.body_ok = Some Sample.texts_ok /\
  forall t user, exists w',
    post_enroll (with_mail Sample.env_no_mail t user) Sample.body_ok Sample.world =
      (Return (enroll_created 41), w') /\
    courses (store w') = courses Sample.shop /\
    enrollments (store w') = [enroll_row 41 Sample.body_ok] /\
    db_statements (trace w') = [enroll_statement Sample.body_ok].
Proof.
  split; [reflexivity|]. split; [reflexivity|].
  exact (enroll_truthy_created Sample.env_no_mail Sample.body_ok Sample.world
           Sample.texts_ok eq_refl eq_refl eq_refl).
Defined.

(** C2: whenever one of name, email, phone, courseId is absent or empty,
    the answer is 400 with success:false and the world is left exactly as it
    was: no statement reaches the store and no table changes. *)
Theorem enroll_missing_field_rejected
  (env : Env) (req_body : Props) (w : World) (k : string) :
  In k required_fields ->
  spec_absent_or_empty (get req_body k) = true ->
  post_enroll env req_body w =
    (Return (res_status_json 400
               (JObj [("success", JBool false);
                      ("message", JStr "All fields are required")])), w).
Proof.
  intros Hin Habs.
  apply (falsy_field_rejected env req_body w k Hin).
  now apply spec_absent_or_empty_falsy.
Qed.

Lemma enroll_missing_field_rejected_witness :
  post_enroll (Sample.env_mail Sample.smtp_ok) Sample.body_no_phone Sample.world =
    (Return (res_status_json 400
               (JObj [("success", JBool false);
                      ("message", JStr "All fields are required")])), Sample.world).
Proof.
  apply (enroll_missing_field_rejected _ _ _ "phone").
  - simpl. tauto.
  - reflexivity.
Defined.




(** C6: when the INSERT fails the answer is 500 with success:false, the
    store is as it was, and [sendMailSafe] is not called: the trace gains the
    statement and the logged error, nothing else. *)
Theorem enroll_insert_failure (env : Env) (req_body : Props) (w : World) (err : JsError) :
  all_truthy req_body = true ->
  db_fault env w (enroll_statement req_body) = Some err ->
  exists w',
    post_enroll env req_body w =
      (Return (res_status_json 500
                 (JObj [("success", JBool false);
                        ("message", JStr "Server error, please try again later")])),
       w') /\
    store w' = store w /\
    mail_calls (trace w') = mail_calls (trace w) /\
    mail_sends (trace w') = mail_sends (trace w) /\
    trace w' = (trace w ++ [EvDb (enroll_statement req_body);
                            EvError [LText "Enrollment Error:"; LErr err]])%list.
Proof.
  intros Hvalid Hdb.
  eexists. split; [exact (post_enroll_refused env req_body w Hvalid err Hdb)|].
  cbn [store trace].
  rewrite mail_calls_app, mail_sends_app. cbn. rewrite !app_nil_r.
  repeat split.
Qed.

Lemma enroll_insert_failure_witness :
  exists w',
    post_enroll Sample.env_db_down Sample.body_ok Sample.world =
      (Return (res_status_json 500
                 (JObj [("success", JBool false);
                        ("message", JStr "Server error, please try again later")])),
       w') /\
    store w' = Sample.shop /\
    mail_calls (trace w') = [] /\
    mail_sends (trace w') = [].
Proof.
  destruct (enroll_insert_failure Sample.env_db_down Sample.body_ok Sample.world
              {| message := "connect ECONNREFUSED" |} eq_refl eq_refl)
    as (w' & E & Hst & Hc & Hs & _).
  exists w'. repeat split; assumption.
Defined.

(** C9: the default "Pending" is taken exactly when the body's status
    reads as [undefined]; any other status, [null] and the empty string
    included, is the one bound in the INSERT (and stored when the store
    accepts it), and no status makes validation answer 400. *)
Theorem enroll_status_default (env : Env) (req_body : Props) (w : World) :
  all_truthy req_body = true ->
  exists r w' st,
    post_enroll env req_body w = (Return r, w') /\
    status r <> 400 /\
    db_statements (trace w') =
      (db_statements (trace w) ++
         [InsertEnrollment (get req_body "name") (get req_body "email")
            (get req_body "phone") st (get req_body "courseId")])%list /\
    (db_fault env w (enroll_statement req_body) = None ->
       enrollments (store w') =
         (enrollments (store w) ++
            [enrollment_row (next_insert_id (store w)) (get req_body "name")
               (get req_body "email") (get req_body "phone") st
               (get req_body "courseId")])%list) /\
    (get req_body "status" = JUndefined -> st = JStr "Pending") /\
    (get req_body "status" <> JUndefined -> st = get req_body "status") /\
    (get req_body "status" = JNull -> st = JNull) /\
    (get req_body "status" = JStr "" -> st = JStr "").
Proof.
  intros Hvalid.
  assert (Hst : forall v,
             (v = JUndefined -> default_to (JStr "Pending") v = JStr "Pending") /\
             (v <> JUndefined -> default_to (JStr "Pending") v = v) /\
             (v = JNull -> default_to (JStr "Pending") v = JNull) /\
             (v = JStr "" -> default_to (JStr "Pending") v = JStr "")).
  { intros v. repeat split; try (intros ->; reflexivity).
    destruct v; try reflexivity. intros H. now contradiction H. }
  destruct (db_fault env w (enroll_statement req_body)) as [err|] eqn:Hdb.
  - exists enroll_failed.
    eexists. exists (default_to (JStr "Pending") (get req_body "status")).
    split; [exact (post_enroll_refused env req_body w Hvalid err Hdb)|].
    cbn [store trace].
    split; [discriminate|]. split.
    { rewrite db_statements_app. reflexivity. }
    split; [discriminate|apply Hst].
  - destruct (texts_of env req_body) as [tx|] eqn:Htx.
    + destruct (post_enroll_accepted_summary env req_body w Hvalid tx Hdb Htx)
        as (w' & E & Hstore & Hq & _).
      exists (enroll_created (next_insert_id (store w))), w',
        (default_to (JStr "Pending") (get req_body "status")).
      split; [exact E|]. split; [discriminate|]. split; [exact Hq|].
      split; [|apply Hst].
      intros _. rewrite Hstore. reflexivity.
    + destruct (post_enroll_unprintable env req_body w Hvalid Hdb Htx) as (err & E).
      exists enroll_failed.
      eexists. exists (default_to (JStr "Pending") (get req_body "status")).
      split; [exact E|].
      cbn [store trace].
      split; [discriminate|]. split.
      { rewrite db_statements_app. reflexivity. }
      split; [|apply Hst].
      intros _. reflexivity.
Qed.

Lemma enroll_status_default_witness :
  exists r w',
    post_enroll Sample.env_no_mail Sample.body_status_null Sample.world = (Return r, w') /\
    status r <> 400 /\
    enrollments (store w') =
      [enrollment_row 41 (JStr "Asha") (JStr "asha@example.com") (JStr "9876543210")
         JNull (JInt 7)].
Proof.
  destruct (enroll_status_default Sample.env_no_mail Sample.body_status_null
              Sample.world eq_refl)
    as (r & w' & st & E & Hr & _ & Hrow & _ & _ & Hnull & _).
  exists r, w'. split; [exact E|]. split; [exact Hr|].
  rewrite (Hrow eq_refl), (Hnull eq_refl). reflexivity.
Defined.

(** C10: validation tests falsiness: a required field that is [false] or
    the number 0 (a courseId of 0 in particular) gets the same 400 "All
    fields are required" answer, with the world untouched, as the request
    that leaves the field out. *)
Theorem enroll_falsy_field_same_as_omitted
  (env : Env) (req_body : Props) (w : World) (k : string) :
  In k required_fields ->
  get req_body k = JBool false \/ get req_body k = JInt 0 ->
  post_enroll env req_body w =
    (Return (res_status_json 400
               (JObj [("success", JBool false);
                      ("message", JStr "All fields are required")])), w) /\
  post_enroll env (omit k req_body) w = post_enroll env req_body w.
Proof.
  intros Hin Hfalsy.
  assert (E1 : post_enroll env req_body w = (Return enroll_rejected, w)).
  { apply (falsy_field_rejected env req_body w k Hin).
    destruct Hfalsy as [-> | ->]; reflexivity. }
  assert (E2 : post_enroll env (omit k req_body) w = (Return enroll_rejected, w)).
  { apply (falsy_field_rejected env (omit k req_body) w k Hin).
    rewrite get_omit. reflexivity. }
  split; [exact E1|]. now rewrite E1, E2.
Qed.

Lemma enroll_falsy_field_same_as_omitted_witness :
  post_enroll (Sample.env_mail Sample.smtp_ok) Sample.body_course_zero Sample.world =
    (Return (res_status_json 400
               (JObj [("success", JBool false);
                      ("message", JStr "All fields are required")])), Sample.world) /\
  post_enroll (Sample.env_mail Sample.smtp_ok)
    (omit "courseId" Sample.body_course_zero) Sample.world =
  post_enroll (Sample.env_mail Sample.smtp_ok) Sample.body_course_zero Sample.world.
Proof.
  apply (enroll_falsy_field_same_as_omitted _ _ _ "courseId").
  - simpl. tauto.
  - right. reflexivity.
Defined.

(** ** [sendMailSafe], claim C3 *)




(** ** The course endpoints *)

Section CourseFacts.

Variable env : Env.


(** Lines 105-107 on a syllabus that is a non-empty string. *)
Lemma decode_syllabus_text (course : Row) (text : string) (w : World) :
  get course "syllabus" = JStr text ->
  text <> "" ->
  decode_syllabus course w =
    (Return (set course "syllabus"
               match JSON_parse text with
               | Some v => v
               | None => JArr []
               end), w).
Proof.
  intros Hs Hne. unfold decode_syllabus. rewrite Hs.
  assert (Ht : truthy (JStr text) && (typeof (JStr text) =? "string")%string = true).
  { destruct text; [congruence|reflexivity]. }
  rewrite Ht. unfold try_catch, bind, JSON_parse_M. cbn [string_value].
  destruct (JSON_parse text); reflexivity.
Qed.

(** Lines 105-107 never throw and touch nothing outside the row. *)
Lemma decode_syllabus_returns (course : Row) (w : World) :
  exists course', decode_syllabus course w = (Return course', w).
Proof.
  unfold decode_syllabus.
  destruct (truthy (get course "syllabus")
            && (typeof (get course "syllabus") =? "string")%string).
  - unfold try_catch, bind, JSON_parse_M.
    destruct (JSON_parse (string_value (get course "syllabus"))); eexists; reflexivity.
  - eexists; reflexivity.
Qed.

Lemma get_course_by_id_found (id : string) (w : World) (course : Row) (rest : list Row) :
  db_fault env w (SelectCourseById (JStr id)) = None ->
  rows_with_id env id (store w) = course :: rest ->
  exists course',
    decode_syllabus course (after_lookup id w) = (Return course', after_lookup id w) /\
    get_course_by_id env id w = (Return (res_json (JObj course')), after_lookup id w).
Proof.
  intros Hdb Hrows.
  destruct (decode_syllabus_returns course (after_lookup id w)) as (course' & E).
  exists course'. split; [exact E|].
  unfold get_course_by_id, try_catch, bind, select_course_by_id, db_request.
  rewrite Hdb. fold (rows_with_id env id (store w)). rewrite Hrows.
  fold (after_lookup id w). rewrite E. reflexivity.
Qed.

Lemma get_course_by_id_absent (id : string) (w : World) :
  db_fault env w (SelectCourseById (JStr id)) = None ->
  rows_with_id env id (store w) = [] ->
  get_course_by_id env id w =
    (Return (res_status_json 404 (JObj [("error", JStr "Course not found")])),
     after_lookup id w).
Proof.
  intros Hdb Hrows.
  unfold get_course_by_id, try_catch, bind, select_course_by_id, db_request.
  rewrite Hdb. fold (rows_with_id env id (store w)). rewrite Hrows.
  reflexivity.
Qed.

Lemma get_course_by_id_store_error (id : string) (w : World) (err : JsError) :
  db_fault env w (SelectCourseById (JStr id)) = Some err ->
  get_course_by_id env id w =
    (Return (res_status_json 500 (JObj [("error", JStr "Internal server error")])),
     {| store := store w;
        trace := (trace w ++ [EvDb (SelectCourseById (JStr id));
                              EvError [LText "❌ Error fetching course by ID:";
                                       LErr err]])%list |}).
Proof.
  intros Hdb.
  unfold get_course_by_id, try_catch, bind, select_course_by_id, db_request.
  rewrite Hdb. unfold console_error, emit, ret. cbn [store trace].
  rewrite <- !app_assoc. reflexivity.
Qed.

(** The answer 404 is given on one path only. *)
Lemma get_course_by_id_404 (id : string) (w : World) (r : Response) (w' : World) :
  get_course_by_id env id w = (Return r, w') ->
  status r = 404 ->
  db_fault env w (SelectCourseById (JStr id)) = None /\
  rows_with_id env id (store w) = [].
Proof.
  intros E H404.
  destruct (db_fault env w (SelectCourseById (JStr id))) as [err|] eqn:Hdb.
  - rewrite (get_course_by_id_store_error id w err Hdb) in E.
    injection E as <- _. discriminate H404.
  - destruct (rows_with_id env id (store w)) as [|course rest] eqn:Hrows.
    + split; reflexivity.
    + destruct (get_course_by_id_found id w course rest Hdb Hrows)
        as (course' & _ & E').
      rewrite E' in E. injection E as <- _. discriminate H404.
Qed.

End CourseFacts.

(** C4: when the row exists and its syllabus is the text ["[1,2,3]"], the
    answer is 200 and carries the row with the syllabus decoded to the array
    1, 2, 3; when it is non-empty text that does not parse, such as
    ["{not json"], the answer is 200 with the empty array in its place.
    Every other column is as it was and the store is not changed. *)
Theorem course_by_id_decodes_syllabus
  (env : Env) (id : string) (w : World) (course : Row) (rest : list Row) (text : string) :
  db_fault env w (SelectCourseById (JStr id)) = None ->
  rows_with_id env id (store w) = course :: rest ->
  get course "syllabus" = JStr text ->
  text <> "" ->
  text = "[1,2,3]" \/ JSON_parse text = None ->
  exists w' decoded,
    get_course_by_id env id w =
      (Return (res_status_json 200 (JObj (set course "syllabus" decoded))), w') /\
    get (set course "syllabus" decoded) "syllabus" = decoded /\
    (forall k, k <> "syllabus" ->
       get (set course "syllabus" decoded) k = get course k) /\
    store w' = store w /\
    (text = "[1,2,3]" -> decoded = JArr [JInt 1; JInt 2; JInt 3]) /\
    (text = "{not json" -> decoded = JArr []) /\
    (JSON_parse text = None -> decoded = JArr []).
Proof.
  intros Hdb Hrows Hs Hne _.
  destruct (get_course_by_id_found env id w course rest Hdb Hrows)
    as (course' & Hdec & E).
  rewrite (decode_syllabus_text course text _ Hs Hne) in Hdec.
  injection Hdec as <-.
  exists (after_lookup id w),
    (match JSON_parse text with Some v => v | None => JArr [] end).
  split; [exact E|]. split; [apply get_set_same|].
  split; [intros k Hk; now apply get_set_other|]. split; [reflexivity|].
  repeat split.
  - intros ->. reflexivity.
  - intros ->. reflexivity.
  - intros ->. reflexivity.
Qed.

Lemma course_by_id_decodes_syllabus_witness :
  (exists w',
     get_course_by_id Sample.env_no_mail "7" Sample.world =
       (Return (res_status_json 200
                  (JObj [("id", JInt 7); ("title", JStr "Machine Learning");
                         ("syllabus", JArr [JInt 1; JInt 2; JInt 3])])), w')) /\
  (exists w',
     get_course_by_id Sample.env_no_mail "8" Sample.world =
       (Return (res_status_json 200
                  (JObj [("id", JInt 8); ("title", JStr "Deep Learning");
                         ("syllabus", JArr [])])), w')).
Proof.
  split.
  - destruct (course_by_id_decodes_syllabus Sample.env_no_mail "7" Sample.world
                Sample.course_ml [] "[1,2,3]" eq_refl eq_refl eq_refl)
      as (w' & decoded & E & _ & _ & _ & H123 & _).
    { discriminate. }
    { left. reflexivity. }
    exists w'. rewrite E, (H123 eq_refl). reflexivity.
  - destruct (course_by_id_decodes_syllabus Sample.env_no_mail "8" Sample.world
                Sample.course_broken [] "{not json" eq_refl eq_refl eq_refl)
      as (w' & decoded & E & _ & _ & _ & _ & Hbad & _).
    { discriminate. }
    { right. reflexivity. }
    exists w'. rewrite E, (Hbad eq_refl). reflexivity.
Defined.

(** C7: the lookup by id keeps its failure statuses apart: every store
    error thrown by the lookup is answered 500 (and logged), every lookup the
    store answers with no row is answered 404 with the "Course not found"
    body, and an answer is 404 only then: never for a store error. *)
Theorem course_by_id_failure_modes (env : Env) (id : string) (w : World) :
  (forall err, db_fault env w (SelectCourseById (JStr id)) = Some err ->
     exists w',
       get_course_by_id env id w =
         (Return (res_status_json 500 (JObj [("error", JStr "Internal server error")])),
          w') /\
       store w' = store w) /\
  (db_fault env w (SelectCourseById (JStr id)) = None ->
   rows_with_id env id (store w) = [] ->
     get_course_by_id env id w =
       (Return (res_status_json 404 (JObj [("error", JStr "Course not found")])),
        after_lookup id w)) /\
  (forall r w',
     get_course_by_id env id w = (Return r, w') ->
     status r = 404 ->
     db_fault env w (SelectCourseById (JStr id)) = None /\
     rows_with_id env id (store w) = [] /\
     body r = JObj [("error", JStr "Course not found")]).
Proof.
  split; [|split].
  - intros err Hdb. eexists.
    split; [exact (get_course_by_id_store_error env id w err Hdb)|reflexivity].
  - apply get_course_by_id_absent.
  - intros r w' E H404.
    destruct (get_course_by_id_404 env id w r w' E H404) as (Hdb & Hrows).
    split; [exact Hdb|]. split; [exact Hrows|].
    rewrite (get_course_by_id_absent env id w Hdb Hrows) in E.
    injection E as <- _. reflexivity.
Qed.

Lemma course_by_id_failure_modes_witness :
  (exists w',
     get_course_by_id Sample.env_no_mail "99" Sample.world =
       (Return (res_status_json 404 (JObj [("error", JStr "Course not found")])), w')) /\
  (exists w',
     get_course_by_id Sample.env_db_down "7" Sample.world =
       (Return (res_status_json 500 (JObj [("error", JStr "Internal server error")])),
        w')).
Proof.
  destruct (course_by_id_failure_modes Sample.env_no_mail "99" Sample.world)
    as (_ & H404 & _).
  destruct (course_by_id_failure_modes Sample.env_db_down "7" Sample.world)
    as (H500 & _).
  split.
  - eexists. exact (H404 eq_refl eq_refl).
  - destruct (H500 {| message := "connect ECONNREFUSED" |} eq_refl) as (w' & E & _).
    exists w'. exact E.
Defined.



(* ================================================================== *)
(** * Further properties of the endpoints *)
(* ================================================================== *)

(** ** [POST /api/enroll]: answers, storage, logging *)

Lemma not_all_truthy (req_body : Props) :
  all_truthy req_body = false ->
  exists k, In k required_fields /\ truthy (get req_body k) = false.
Proof.
  unfold all_truthy, required_fields. cbn [forallb].
  destruct (truthy (get req_body "name")) eqn:Hn;
    [|intros _; exists "name"; simpl; tauto].
  destruct (truthy (get req_body "email")) eqn:He;
    [|intros _; exists "email"; simpl; tauto].
  destruct (truthy (get req_body "phone")) eqn:Hp;
    [|intros _; exists "phone"; simpl; tauto].
  destruct (truthy (get req_body "courseId")) eqn:Hc;
    [|intros _; exists "courseId"; simpl; tauto].
  discriminate.
Qed.

(** X1: the enrollment handler always answers, with 201, 400 or 500:
    400 exactly when a required field is falsy; 201 exactly when the fields
    pass, the store accepts the INSERT and the five fields convert to
    strings; 500 otherwise.  The row is stored exactly when the fields pass
    and the store accepts the INSERT, also when the answer is then 500
    because a template throws.  An answer other than 201 comes with no call
    of a notification; a 201 answer carries the key of the row. *)
Theorem enroll_answer_decides_storage (env : Env) (req_body : Props) (w : World) :
  exists r w',
    post_enroll env req_body w = (Return r, w') /\
    (status r = 201 \/ status r = 400 \/ status r = 500) /\
    (status r = 400 <-> all_truthy req_body = false) /\
    (status r = 201 <->
       all_truthy req_body = true /\
       db_fault env w (enroll_statement req_body) = None /\
       texts_of env req_body <> None) /\
    (all_truthy req_body = true ->
     db_fault env w (enroll_statement req_body) = None ->
       store w' = store_after_insert (store w)
                    (enroll_row (next_insert_id (store w)) req_body)) /\
    (all_truthy req_body = false \/
     db_fault env w (enroll_statement req_body) <> None ->
       store w' = store w) /\
    (status r <> 201 -> mail_calls (trace w') = mail_calls (trace w)) /\
    (status r = 201 ->
       get match body r with JObj o => o | _ => [] end "enrollmentId"
         = JInt (next_insert_id (store w))).
Proof.
  destruct (all_truthy req_body) eqn:Hvalid.
  - destruct (db_fault env w (enroll_statement req_body)) as [err|] eqn:Hdb.
    + exists enroll_failed. eexists.
      split; [exact (post_enroll_refused env req_body w Hvalid err Hdb)|].
      unfold enroll_failed, res_status_json. cbn [status body store trace].
      rewrite mail_calls_app. cbn [mail_calls flat_map app].
      rewrite app_nil_r.
      repeat split; intros; try reflexivity; try discriminate;
        intuition (try congruence; try discriminate).
    + destruct (texts_of env req_body) as [tx|] eqn:Htx.
      * destruct (post_enroll_accepted_summary env req_body w Hvalid tx Hdb Htx)
          as (w' & E & Hst & _).
        exists (enroll_created (next_insert_id (store w))), w'.
        split; [exact E|].
        unfold enroll_created, res_status_json. cbn [status body].
        repeat split; intros; try reflexivity; try discriminate; try assumption;
          intuition (try congruence; try discriminate).
      * destruct (post_enroll_unprintable env req_body w Hvalid Hdb Htx) as (err & E).
        exists enroll_failed. eexists.
        split; [exact E|].
        unfold enroll_failed, res_status_json. cbn [status body store trace].
        rewrite mail_calls_app. cbn [mail_calls flat_map app].
        rewrite app_nil_r.
        repeat split; intros; try reflexivity; try discriminate;
          intuition (try congruence; try discriminate).
  - destruct (not_all_truthy req_body Hvalid) as (k & Hin & Hf).
    exists enroll_rejected, w.
    split; [exact (falsy_field_rejected env req_body w k Hin Hf)|].
    unfold enroll_rejected, res_status_json. cbn [status body].
    repeat split; intros; try reflexivity; try discriminate;
      intuition (try congruence; try discriminate).
Qed.

(** X2: the enrollment handler reads five properties of the body and
    nothing else: two bodies that agree on name, email, phone, status and
    courseId get the same answer and leave the same world. *)
Theorem enroll_reads_five_fields (env : Env) (b1 b2 : Props) (w : World) :
  (forall k, In k ["name"; "email"; "phone"; "status"; "courseId"] ->
             get b1 k = get b2 k) ->
  post_enroll env b1 w = post_enroll env b2 w.
Proof.
  intros H. unfold post_enroll.
  rewrite (H "name"), (H "email"), (H "phone"), (H "status"), (H "courseId");
    try reflexivity; simpl; tauto.
Qed.

Lemma enroll_reads_five_fields_witness :
  post_enroll (Sample.env_mail Sample.smtp_ok)
    (Sample.body_ok ++ [("role", JStr "admin"); ("id", JInt 1)])%list Sample.world
  = post_enroll (Sample.env_mail Sample.smtp_ok) Sample.body_ok Sample.world.
Proof.
  apply enroll_reads_five_fields.
  intros k Hk. simpl in Hk.
  destruct Hk as [<-|[<-|[<-|[<-|[<-|[]]]]]]; reflexivity.
Defined.



(** X4: with a transporter whose sends all succeed, an accepted
    enrollment whose five fields convert to strings does five things to the
    outside, in this order, and nothing else: the INSERT, the call and the
    send for the administrative address, the call and the send for the
    enrollee.  Nothing is logged. *)
Theorem enroll_clean_trace
  (env : Env) (req_body : Props) (w : World) (t : Transport) (tx : Texts) :
  all_truthy req_body = true ->
  db_fault env w (enroll_statement req_body) = None ->
  texts_of env req_body = Some tx ->
  transporter env = Some t ->
  (forall h m, sendMail t h m = None) ->
  exists w',
    post_enroll env req_body w =
      (Return (enroll_created (next_insert_id (store w))), w') /\
    trace w' =
      (trace w ++
         [EvDb (enroll_statement req_body);
          call_event (admin_call tx);
          EvSendMail (call_envelope env (admin_call tx));
          call_event (welcome_call req_body tx);
          EvSendMail (call_envelope env (welcome_call req_body tx))])%list.
Proof.
  intros Hvalid Hdb Htx Ht Hok.
  destruct (post_enroll_accepted_trace env req_body w Hvalid tx Hdb Htx)
    as (evs1 & evs2 & E & (_ & S1) & (_ & S2)).
  destruct (S1 t Ht) as [(h1 & _ & Hev1)|(h & err & Hs & _)];
    [|rewrite Hok in Hs; discriminate].
  destruct (S2 t Ht) as [(h2 & _ & Hev2)|(h & err & Hs & _)];
    [|rewrite Hok in Hs; discriminate].
  eexists. split; [exact E|].
  cbn [trace]. subst evs1 evs2. reflexivity.
Qed.

Lemma enroll_clean_trace_witness :
  exists w',
    post_enroll (Sample.env_mail Sample.smtp_ok) Sample.body_ok Sample.world =
      (Return (enroll_created 41), w') /\
    map (fun m => to m) (mail_sends (trace w')) =
      [JStr "deeplearneracademy@gmail.com"; JStr "asha@example.com"] /\
    errors_logged (trace w') = [] /\ warnings_logged (trace w') = [].
Proof.
  destruct (enroll_clean_trace (Sample.env_mail Sample.smtp_ok) Sample.body_ok
              Sample.world Sample.smtp_ok Sample.texts_ok
              eq_refl eq_refl eq_refl eq_refl)
    as (w' & E & Htrace).
  { intros h m. reflexivity. }
  exists w'. split; [exact E|]. rewrite Htrace. repeat split.
Defined.

(** X5: without a transporter an accepted enrollment whose five fields
    convert to strings is answered 201 and hands nothing to a transport:
    after the INSERT each notification is called and skipped with one
    warning that names its recipient. *)
Theorem enroll_without_transporter
  (env : Env) (req_body : Props) (w : World) (tx : Texts) :
  all_truthy req_body = true ->
  db_fault env w (enroll_statement req_body) = None ->
  texts_of env req_body = Some tx ->
  transporter env = None ->
  exists w',
    post_enroll env req_body w =
      (Return (enroll_created (next_insert_id (store w))), w') /\
    trace w' =
      (trace w ++
         [EvDb (enroll_statement req_body);
          call_event (admin_call tx);
          EvWarn [LText "⚠️ Skipping email to deeplearneracademy@gmail.com - transporter not configured"];
          call_event (welcome_call req_body tx);
          EvWarn [LText ("⚠️ Skipping email to " ++ t_email tx
                         ++ " - transporter not configured")]])%list /\
    mail_sends (trace w') = mail_sends (trace w) /\
    text_of env (get req_body "email") = Return (t_email tx).
Proof.
  intros Hvalid Hdb Htx Hnone.
  destruct (post_enroll_accepted_trace env req_body w Hvalid tx Hdb Htx)
    as (evs1 & evs2 & E & (N1 & _) & (N2 & _)).
  specialize (N1 Hnone). specialize (N2 Hnone).
  eexists. split; [exact E|].
  cbn [trace]. subst evs1 evs2.
  split; [reflexivity|]. split.
  - rewrite mail_sends_app. unfold admin_call, welcome_call, call_event.
    cbn [mail_sends flat_map app]. apply app_nil_r.
  - apply (texts_of_fields env req_body tx Htx).
Qed.

Lemma enroll_without_transporter_witness :
  exists w',
    post_enroll Sample.env_no_mail Sample.body_ok Sample.world =
      (Return (enroll_created 41), w') /\
    warnings_logged (trace w') =
      [[LText "⚠️ Skipping email to deeplearneracademy@gmail.com - transporter not configured"];
       [LText "⚠️ Skipping email to asha@example.com - transporter not configured"]] /\
    mail_sends (trace w') = [].
Proof.
  destruct (enroll_without_transporter Sample.env_no_mail Sample.body_ok
              Sample.world Sample.texts_ok eq_refl eq_refl eq_refl eq_refl)
    as (w' & E & Htrace & Hsends & _).
  exists w'. split; [exact E|]. split; [|exact Hsends].
  rewrite Htrace. reflexivity.
Defined.

(** X6: when [createTransport] throws at start-up, the process starts all
    the same with [transporter] left [null] and one warning that carries the
    error's message; every accepted enrollment of that process whose five
    fields convert to strings is answered 201, stores its row and hands
    nothing to a transport. *)
Theorem start_without_transport
  (createTransport : M Transport) (user : option string)
  (fault : World -> SqlStmt -> option JsError) (matches : JSValue -> JSValue -> bool)
  (num : Z -> nat -> string) (depth : nat) (w w1 : World) (err : JsError) :
  createTransport w = (Throw err, w1) ->
  exists env,
    start createTransport user fault matches num depth w =
      (Return env,
       {| store := store w1;
          trace := (trace w1 ++
                      [EvWarn [LText "⚠️ Email transporter not configured properly:";
                               LText (message err)]])%list |}) /\
    transporter env = None /\
    forall req_body w2 tx,
      all_truthy req_body = true ->
      fault w2 (enroll_statement req_body) = None ->
      texts_of env req_body = Some tx ->
      exists w3,
        post_enroll env req_body w2 =
          (Return (enroll_created (next_insert_id (store w2))), w3) /\
        enrollments (store w3) =
          (enrollments (store w2)
             ++ [enroll_row (next_insert_id (store w2)) req_body])%list /\
        mail_sends (trace w3) = mail_sends (trace w2).
Proof.
  intros Hthrow.
  exists {| transporter := None; EMAIL_USER := user;
            db_fault := fault; id_matches := matches; number_text := num;
                   stack_depth := depth |}.
  split.
  - unfold start, init_transporter, bind, try_catch. rewrite Hthrow.
    reflexivity.
  - split; [reflexivity|].
    intros req_body w2 tx Hvalid Hdb Htx.
    destruct (post_enroll_accepted_summary
                {| transporter := None; EMAIL_USER := user;
                   db_fault := fault; id_matches := matches; number_text := num;
                   stack_depth := depth |}
                req_body w2 Hvalid tx Hdb Htx)
      as (w3 & E & Hst & _ & _ & Hsends).
    exists w3. split; [exact E|]. rewrite Hst. split; [reflexivity|].
    cbn [transporter] in Hsends. now rewrite app_nil_r in Hsends.
Qed.

Lemma start_without_transport_witness :
  exists env w0,
    start (throw {| message := "Missing credentials" |}) None
      Sample.healthy Sample.same_text number_to_string 64 Sample.world
      = (Return env, w0) /\
    warnings_logged (trace w0) =
      [[LText "⚠️ Email transporter not configured properly:";
        LText "Missing credentials"]] /\
    exists w3,
      post_enroll env Sample.body_ok w0 = (Return (enroll_created 41), w3) /\
      mail_sends (trace w3) = [].
Proof.
  destruct (start_without_transport (throw {| message := "Missing credentials" |})
              None Sample.healthy Sample.same_text number_to_string 64
              Sample.world Sample.world
              {| message := "Missing credentials" |} eq_refl)
    as (env & E & _ & Henroll).
  exists env. eexists. split; [exact E|]. split; [reflexivity|].
  assert (Henv : env = Sample.env_no_mail).
  { unfold start, init_transporter, bind, try_catch, throw, console_warn, emit, ret in E.
    injection E as <-. reflexivity. }
  destruct (Henroll Sample.body_ok
              {| store := store Sample.world;
                 trace := (trace Sample.world ++
                             [EvWarn [LText "⚠️ Email transporter not configured properly:";
                                      LText "Missing credentials"]])%list |}
              Sample.texts_ok eq_refl eq_refl)
    as (w3 & E3 & _ & Hsends).
  { rewrite Henv. reflexivity. }
  exists w3. split; [exact E3|exact Hsends].
Defined.

(** ** The course endpoints: what they do besides answering *)

(** X7: the list endpoint always answers and its only effect is the one
    SELECT: the store is unchanged and nothing is written to the console,
    also when the store fails; the answer is then 500 with the body
    "Database error", and otherwise 200 with the rows. *)
Theorem courses_list_outcomes (env : Env) (w : World) :
  exists r,
    get_courses env w =
      (Return r,
       {| store := store w; trace := (trace w ++ [EvDb SelectCourses])%list |}) /\
    (db_fault env w SelectCourses = None ->
       r = res_status_json 200 (JArr (map JObj (courses (store w))))) /\
    (db_fault env w SelectCourses <> None ->
       r = res_status_json 500 (JObj [("error", JStr "Database error")])).
Proof.
  unfold get_courses, try_catch, bind, select_courses, db_request.
  destruct (db_fault env w SelectCourses) as [err|].
  - eexists. split; [reflexivity|]. split; [discriminate|reflexivity].
  - eexists. split; [reflexivity|]. split; [reflexivity|].
    intros H. now contradiction H.
Qed.

Lemma decode_syllabus_other (course : Row) (w : World) :
  (forall text, get course "syllabus" = JStr text -> text = "") ->
  decode_syllabus course w = (Return course, w).
Proof.
  intros H. unfold decode_syllabus.
  destruct (get course "syllabus") as [| |b|m k|text|items|props] eqn:E;
    try reflexivity.
  - destruct b; reflexivity.
  - cbn [truthy typeof]. destruct (m =? 0); reflexivity.
  - rewrite (H text eq_refl). reflexivity.
Qed.

(** X8: the lookup by id never changes the store, sends exactly one
    statement and calls no notification.  When the store throws, the error
    is logged once.  When the store answers with no row, or with a first row
    whose syllabus is left as it is or does not parse, the statement is all
    the trace gains: nothing is logged, and a [JSON.parse] failure is
    swallowed silently. *)
Theorem course_by_id_effects (env : Env) (id : string) (w : World) :
  exists r w',
    get_course_by_id env id w = (Return r, w') /\
    store w' = store w /\
    db_statements (trace w') =
      (db_statements (trace w) ++ [SelectCourseById (JStr id)])%list /\
    mail_calls (trace w') = mail_calls (trace w) /\
    (db_fault env w (SelectCourseById (JStr id)) = None ->
     (forall course rest,
        rows_with_id env id (store w) = course :: rest -> undecoded course) ->
       trace w' = (trace w ++ [EvDb (SelectCourseById (JStr id))])%list) /\
    (forall err, db_fault env w (SelectCourseById (JStr id)) = Some err ->
       errors_logged (trace w') =
         (errors_logged (trace w)
            ++ [[LText "❌ Error fetching course by ID:"; LErr err]])%list).
Proof.
  destruct (db_fault env w (SelectCourseById (JStr id))) as [err|] eqn:Hdb.
  - eexists. eexists.
    split; [exact (get_course_by_id_store_error env id w err Hdb)|].
    cbn [store trace].
    rewrite db_statements_app, mail_calls_app, errors_logged_app.
    cbn [db_statements mail_calls errors_logged flat_map app].
    rewrite app_nil_r.
    repeat split; try discriminate.
    intros err' [= <-]. reflexivity.
  - destruct (rows_with_id env id (store w)) as [|course rest] eqn:Hrows.
    + eexists. eexists.
      split; [exact (get_course_by_id_absent env id w Hdb Hrows)|].
      unfold after_lookup. cbn [store trace].
      rewrite db_statements_app, mail_calls_app.
      cbn [db_statements mail_calls flat_map app]. rewrite app_nil_r.
      repeat split; discriminate.
    + destruct (get_course_by_id_found env id w course rest Hdb Hrows)
        as (course' & _ & E).
      eexists. eexists. split; [exact E|].
      unfold after_lookup. cbn [store trace].
      rewrite db_statements_app, mail_calls_app.
      cbn [db_statements mail_calls flat_map app]. rewrite app_nil_r.
      repeat split; discriminate.
Qed.

(** X9: a found row whose syllabus is not a non-empty string (the column
    is missing, [null], the empty string, or a value the driver already
    decoded) is answered 200 with the row exactly as the store gave it. *)
Theorem course_by_id_keeps_other_syllabus
  (env : Env) (id : string) (w : World) (course : Row) (rest : list Row) :
  db_fault env w (SelectCourseById (JStr id)) = None ->
  rows_with_id env id (store w) = course :: rest ->
  (forall text, get course "syllabus" = JStr text -> text = "") ->
  get_course_by_id env id w =
    (Return (res_status_json 200 (JObj course)), after_lookup id w).
Proof.
  intros Hdb Hrows Hs.
  destruct (get_course_by_id_found env id w course rest Hdb Hrows)
    as (course' & Hdec & E).
  rewrite (decode_syllabus_other course _ Hs) in Hdec.
  injection Hdec as <-. exact E.
Qed.

Lemma course_by_id_keeps_other_syllabus_witness :
  get_course_by_id Sample.env_no_mail "9"
    {| store := Fixture.catalogue; trace := [] |} =
    (Return (res_status_json 200
               (JObj [("id", JInt 9); ("title", JStr "Vision");
                      ("syllabus", JArr [JStr "CNN"; JStr "ViT"])])),
     after_lookup "9" {| store := Fixture.catalogue; trace := [] |}) /\
  get_course_by_id Sample.env_no_mail "10"
    {| store := Fixture.catalogue; trace := [] |} =
    (Return (res_status_json 200
               (JObj [("id", JInt 10); ("title", JStr "Draft"); ("syllabus", JStr "")])),
     after_lookup "10" {| store := Fixture.catalogue; trace := [] |}).
Proof.
  split.
  - apply (course_by_id_keeps_other_syllabus _ _ _ Fixture.course_decoded []);
      try reflexivity.
    intros text H. discriminate.
  - apply (course_by_id_keeps_other_syllabus _ _ _ Fixture.course_draft []);
      try reflexivity.
    intros text H. injection H as <-. reflexivity.
Defined.

(* ================================================================== *)
(** * Properties of the upload callbacks *)
(* ================================================================== *)

(** ** Strings *)

Section StringFacts.

Local Open Scope nat_scope.

Lemma mem_char_get (c : ascii) (s : string) :
  mem_char c s = false -> forall i, is_char (String.get i s) c = false.
Proof.
  induction s as [|c' r IH]; simpl; intros H i; [reflexivity|].
  apply orb_false_iff in H. destruct H as [Hc Hr].
  destruct i; simpl; auto.
Qed.

Lemma get_mem_char (c : ascii) (s : string) :
  (forall i, is_char (String.get i s) c = false) -> mem_char c s = false.
Proof.
  induction s as [|c' r IH]; simpl; intros H; [reflexivity|].
  apply orb_false_iff. split.
  - exact (H 0).
  - apply IH. intros i. exact (H (S i)).
Qed.

Lemma mem_char_append (c : ascii) (a b : string) :
  mem_char c (a ++ b) = mem_char c a || mem_char c b.
Proof.
  induction a as [|c' r IH]; simpl; [reflexivity|].
  now rewrite IH, orb_assoc.
Qed.

Lemma substring_all (s : string) : substring 0 (String.length s) s = s.
Proof. induction s as [|c r IH]; simpl; [reflexivity|now rewrite IH]. Qed.

Lemma substring_skip (a b : string) (n m : nat) :
  substring (String.length a + n) m (a ++ b) = substring n m b.
Proof. induction a as [|c r IH]; simpl; auto. Qed.

Lemma length_append (a b : string) :
  String.length (a ++ b) = String.length a + String.length b.
Proof. induction a as [|c r IH]; simpl; auto. Qed.

Lemma get_append_right (a b : string) (k : nat) :
  String.get (String.length a + k) (a ++ b) = String.get k b.
Proof.
  rewrite Nat.add_comm. symmetry. apply append_correct2.
Qed.

Lemma get_append_left (a b : string) (k : nat) :
  k < String.length a -> String.get k (a ++ b) = String.get k a.
Proof. intros H. symmetry. now apply append_correct1. Qed.

End StringFacts.

(** ** The scan of [path.extname] *)

Section ScanFacts.

Variable path : string.

Lemma is_dot_not_slash (code : option ascii) :
  is_char code "." = true -> is_char code "/" = false.
Proof.
  destruct code as [c|]; simpl; [|discriminate].
  intros H. apply Ascii.eqb_eq in H. subst c. reflexivity.
Qed.

Lemma end_see_end (m : Z) (st : scan) :
  m <> -1 -> end_ (see_end m st) <> -1.
Proof.
  intros Hm. unfold see_end.
  destruct (Z.eqb_spec (end_ st) (-1)); simpl; assumption.
Qed.

Lemma see_end_set (m : Z) (st : scan) :
  end_ st <> -1 -> see_end m st = st.
Proof.
  intros H. unfold see_end.
  destruct (Z.eqb_spec (end_ st) (-1)); [contradiction|reflexivity].
Qed.

Lemma startDot_see_end (m : Z) (st : scan) :
  startDot (see_end m st) = startDot st.
Proof. unfold see_end. destruct (end_ st =? -1); reflexivity. Qed.

(** A character that is neither "/" nor ".", before any dot was seen. *)
Lemma scan_step_plain (i : nat) (code : option ascii) (st : scan) :
  is_char code "/" = false ->
  is_char code "." = false ->
  startDot st = -1 ->
  scan_step i code st = inr (see_end (Z.of_nat i + 1) st).
Proof.
  intros Hs Hd Hsd. unfold scan_step. rewrite Hs, Hd.
  fold (see_end (Z.of_nat i + 1) st).
  rewrite startDot_see_end, Hsd. reflexivity.
Qed.

(** The first dot the scan meets. *)
Lemma scan_step_first_dot (i : nat) (code : option ascii) (st : scan) :
  is_char code "." = true ->
  startDot st = -1 ->
  scan_step i code st =
    inr {| startDot := Z.of_nat i;
           startPart := startPart (see_end (Z.of_nat i + 1) st);
           end_ := end_ (see_end (Z.of_nat i + 1) st);
           matchedSlash := matchedSlash (see_end (Z.of_nat i + 1) st);
           preDotState := preDotState (see_end (Z.of_nat i + 1) st) |}.
Proof.
  intros Hd Hsd. unfold scan_step.
  rewrite (is_dot_not_slash code Hd), Hd.
  fold (see_end (Z.of_nat i + 1) st).
  rewrite startDot_see_end, Hsd. reflexivity.
Qed.

(** Any turn after the dot: the dot and the end stay, and a state that
    left 0 does not come back to it. *)
Lemma scan_step_after_dot (i : nat) (code : option ascii) (st : scan) :
  startDot st <> -1 ->
  end_ st <> -1 ->
  exists st',
    (scan_step i code st = inl st' \/ scan_step i code st = inr st') /\
    startDot st' = startDot st /\ end_ st' = end_ st /\
    (preDotState st <> 0 -> preDotState st' <> 0) /\
    (is_char code "/" = false ->
       scan_step i code st = inr st' /\ preDotState st' <> 0 /\
       (is_char code "." = false -> preDotState st' = -1)).
Proof.
  intros Hsd Hend. unfold scan_step.
  apply Z.eqb_neq in Hsd. apply Z.eqb_neq in Hend.
  destruct (is_char code "/").
  - destruct (matchedSlash st); cbn [negb].
    + eexists. split; [right; reflexivity|]. repeat split; auto; discriminate.
    + eexists. split; [left; reflexivity|]. repeat split; auto; discriminate.
  - rewrite Hend.
    destruct (is_char code ".").
    + rewrite Hsd.
      destruct (Z.eqb_spec (preDotState st) 1) as [H1|H1]; cbn [negb].
      * eexists. split; [right; reflexivity|].
        repeat split; auto; try discriminate; lia.
      * eexists. split; [right; reflexivity|].
        cbn. repeat split; auto; try discriminate.
    + rewrite Hsd. cbn [negb].
      eexists. split; [right; reflexivity|].
      cbn. repeat split; auto; discriminate.
Qed.

Lemma scan_keeps_dot (n : nat) :
  forall st,
    startDot st <> -1 -> end_ st <> -1 -> preDotState st <> 0 ->
    startDot (scan_from path n st) = startDot st /\
    end_ (scan_from path n st) = end_ st /\
    preDotState (scan_from path n st) <> 0.
Proof.
  induction n as [|i IH]; intros st Hsd Hend Hpre; [simpl; auto|].
  simpl.
  destruct (scan_step_after_dot i (String.get i path) st Hsd Hend)
    as (st' & [E|E] & Hsd' & Hend' & Hpre' & _); rewrite E.
  - rewrite Hsd', Hend'. auto.
  - destruct (IH st') as (A & B & C); try congruence; auto.
    rewrite A, B, Hsd', Hend'. auto.
Qed.

(** After the dot, over characters that are neither "/" nor ".". *)
Lemma scan_plain_after_dot (n : nat) :
  forall st,
    startDot st <> -1 -> end_ st <> -1 ->
    (forall j, (j < n)%nat ->
       is_char (String.get j path) "/" = false /\
       is_char (String.get j path) "." = false) ->
    startDot (scan_from path n st) = startDot st /\
    end_ (scan_from path n st) = end_ st /\
    (n <> O -> preDotState (scan_from path n st) = -1) /\
    (n = O -> preDotState (scan_from path n st) = preDotState st).
Proof.
  induction n as [|i IH]; intros st Hsd Hend Hplain.
  - simpl. repeat split; auto. intros H. now contradiction H.
  - simpl.
    destruct (Hplain i (Nat.lt_succ_diag_r i)) as [Hs Hd].
    destruct (scan_step_after_dot i (String.get i path) st Hsd Hend)
      as (st' & _ & Hsd' & Hend' & _ & Hstep).
    destruct (Hstep Hs) as (E & _ & Hm). specialize (Hm Hd).
    rewrite E.
    destruct (IH st') as (A & B & C & D); try congruence.
    { intros j Hj. apply Hplain. lia. }
    rewrite A, B, Hsd', Hend'. repeat split; try discriminate.
    intros _. destruct i as [|i'].
    + rewrite (D eq_refl). exact Hm.
    + apply C. discriminate.
Qed.

(** Before any dot, over [k] characters that are neither "/" nor ".". *)
Lemma scan_plain_run (k : nat) :
  forall n st,
    startDot st = -1 ->
    (forall j, (n <= j < n + k)%nat ->
       is_char (String.get j path) "/" = false /\
       is_char (String.get j path) "." = false) ->
    scan_from path (n + k) st =
      scan_from path n
        match k with
        | O => st
        | S _ => see_end (Z.of_nat (n + k)) st
        end.
Proof.
  induction k as [|k IH]; intros n st Hsd Hplain.
  - now rewrite Nat.add_0_r.
  - replace (n + S k)%nat with (S (n + k)) by lia.
    simpl scan_from.
    destruct (Hplain (n + k)%nat ltac:(lia)) as [Hs Hd].
    rewrite (scan_step_plain _ _ st Hs Hd Hsd).
    rewrite IH.
    + replace (Z.of_nat (n + k) + 1) with (Z.of_nat (S (n + k))) by lia.
      destruct k as [|k']; [reflexivity|].
      rewrite see_end_set; [reflexivity|].
      apply end_see_end. lia.
    + now rewrite startDot_see_end.
    + intros j Hj. apply Hplain. lia.
Qed.

(** Without a dot in sight the scan never finds one. *)
Lemma scan_no_dot (n : nat) :
  forall st,
    startDot st = -1 ->
    (forall j, (j < n)%nat -> is_char (String.get j path) "." = false) ->
    startDot (scan_from path n st) = -1.
Proof.
  induction n as [|i IH]; intros st Hsd Hnd; [exact Hsd|].
  simpl. specialize (Hnd i (Nat.lt_succ_diag_r i)) as Hd.
  unfold scan_step. rewrite Hd.
  destruct (is_char (String.get i path) "/").
  - destruct (matchedSlash st); cbn [negb]; [|exact Hsd].
    apply IH; auto.
  - fold (see_end (Z.of_nat i + 1) st).
    rewrite startDot_see_end, Hsd. cbn.
    apply IH; [now rewrite startDot_see_end|]; auto.
Qed.

End ScanFacts.

(** ** [path.extname] on names of a given shape *)

Section ExtnameFacts.

Lemma scan_from_S (path : string) (i : nat) (st : scan) :
  scan_from path (S i) st =
    match scan_step i (String.get i path) st with
    | inl st' => st'
    | inr st' => scan_from path i st'
    end.
Proof. reflexivity. Qed.

(** What [extname] returns once the scan has found a dot it accepts. *)
Lemma extname_of_scan (path : string) (a b : nat) :
  startDot (scan_from path (String.length path) scan0) = Z.of_nat a ->
  end_ (scan_from path (String.length path) scan0) = Z.of_nat b ->
  preDotState (scan_from path (String.length path) scan0) <> 0 ->
  (preDotState (scan_from path (String.length path) scan0) = 1 -> b <> S a) ->
  extname path = substring a (b - a) path.
Proof.
  intros Hsd Hend Hpre Hdots. unfold extname.
  set (st := scan_from path (String.length path) scan0) in *.
  rewrite Hsd, Hend.
  destruct (Z.eqb_spec (Z.of_nat a) (-1)); [lia|].
  destruct (Z.eqb_spec (Z.of_nat b) (-1)); [lia|].
  destruct (Z.eqb_spec (preDotState st) 0); [contradiction|].
  cbn [orb].
  assert (Hno : (preDotState st =? 1) && (Z.of_nat a =? Z.of_nat b - 1)
                && (Z.of_nat a =? startPart st + 1) = false).
  { destruct (Z.eqb_spec (preDotState st) 1) as [H1|H1]; [|reflexivity].
    specialize (Hdots H1).
    destruct (Z.eqb_spec (Z.of_nat a) (Z.of_nat b - 1)); [lia|reflexivity]. }
  rewrite Hno. f_equal; lia.
Qed.

(** The last extension of a name: after a character [c] that is no "/",
    a dot and a non-empty run [e] without "." and "/". *)
Lemma extname_last_extension (pre : string) (c : ascii) (e : string) :
  c <> "/"%char ->
  e <> "" ->
  mem_char "." e = false ->
  mem_char "/" e = false ->
  extname (pre ++ String c (String "." e)) = String "." e.
Proof.
  intros Hc Hne Hdot Hslash.
  set (path := pre ++ String c (String "." e)).
  set (L := String.length pre).
  assert (Hlen : String.length path = (L + 2 + String.length e)%nat).
  { unfold path, L. rewrite length_append. simpl. lia. }
  assert (Hget : forall k, String.get (L + k) path
                           = String.get k (String c (String "." e))).
  { intros k. apply get_append_right. }
  assert (Hrun : scan_from path (String.length path) scan0 =
                 scan_from path (L + 2)
                   {| startDot := -1; startPart := 0;
                      end_ := Z.of_nat (String.length path);
                      matchedSlash := false; preDotState := 0 |}).
  { rewrite Hlen. rewrite scan_plain_run.
    - destruct e as [|c0 e']; [now contradiction Hne|reflexivity].
    - reflexivity.
    - intros j Hj.
      replace j with (L + S (S (j - L - 2)))%nat by lia.
      rewrite Hget. simpl. split; now apply mem_char_get. }
  assert (Hdotstep :
            scan_from path (L + 2)
              {| startDot := -1; startPart := 0;
                 end_ := Z.of_nat (String.length path);
                 matchedSlash := false; preDotState := 0 |} =
            scan_from path (L + 1)
              {| startDot := Z.of_nat (L + 1); startPart := 0;
                 end_ := Z.of_nat (String.length path);
                 matchedSlash := false; preDotState := 0 |}).
  { replace (L + 2)%nat with (S (L + 1)) by lia.
    rewrite scan_from_S, Hget. simpl String.get.
    rewrite scan_step_first_dot by reflexivity.
    rewrite see_end_set by (simpl; lia). reflexivity. }
  set (st2 := {| startDot := Z.of_nat (L + 1); startPart := 0;
                 end_ := Z.of_nat (String.length path);
                 matchedSlash := false; preDotState := 0 |}) in *.
  assert (HgetL : String.get L path = Some c).
  { pose proof (Hget 0%nat) as H0. now rewrite Nat.add_0_r in H0. }
  assert (Hfinal : forall n, n = S L ->
                   startDot (scan_from path n st2) = Z.of_nat (L + 1) /\
                   end_ (scan_from path n st2) = Z.of_nat (String.length path) /\
                   preDotState (scan_from path n st2) <> 0).
  { intros n ->. rewrite scan_from_S, HgetL.
    destruct (scan_step_after_dot L (Some c) st2)
      as (st3 & _ & Hsd & Hend & _ & Hstep); [simpl; lia|simpl; lia|].
    destruct Hstep as (E & Hpre & _).
    { simpl. now apply Ascii.eqb_neq. }
    rewrite E.
    destruct (scan_keeps_dot path L st3) as (A & B & C);
      [rewrite Hsd; simpl; lia|rewrite Hend; simpl; lia|exact Hpre|].
    rewrite A, B, Hsd, Hend. auto. }
  specialize (Hfinal (L + 1)%nat ltac:(lia)).
  destruct Hfinal as (A & B & C).
  rewrite (extname_of_scan path (L + 1) (String.length path)).
  - rewrite Hlen.
    replace (L + 2 + String.length e - (L + 1))%nat with (S (String.length e)) by lia.
    unfold path, L. rewrite substring_skip. simpl.
    now rewrite substring_all.
  - rewrite Hrun, Hdotstep. exact A.
  - rewrite Hrun, Hdotstep. exact B.
  - rewrite Hrun, Hdotstep. exact C.
  - intros _. rewrite Hlen.
    destruct e as [|c0 e']; [now contradiction Hne|]. simpl. lia.
Qed.

End ExtnameFacts.

Section ExtnameMore.

(** The scan of [stem ++ "." ++ e], [e] without "." and "/", up to its
    last dot. *)
Lemma scan_to_dot (stem e : string) :
  mem_char "." e = false ->
  mem_char "/" e = false ->
  scan_from (stem ++ String "." e) (String.length (stem ++ String "." e)) scan0 =
  scan_from (stem ++ String "." e) (String.length stem)
    {| startDot := Z.of_nat (String.length stem); startPart := 0;
       end_ := Z.of_nat (String.length (stem ++ String "." e));
       matchedSlash := false; preDotState := 0 |}.
Proof.
  intros Hdot Hslash.
  set (path := stem ++ String "." e).
  set (L := String.length stem).
  assert (Hlen : String.length path = (L + 1 + String.length e)%nat).
  { unfold path, L. rewrite length_append. simpl. lia. }
  assert (Hget : forall k, String.get (L + k) path = String.get k (String "." e)).
  { intros k. apply get_append_right. }
  assert (HgetL : String.get L path = Some "."%char).
  { pose proof (Hget 0%nat) as H0. now rewrite Nat.add_0_r in H0. }
  assert (Hst : forall n, n = (L + 1 + String.length e)%nat ->
            see_end (Z.of_nat L + 1)
              match String.length e with
              | O => scan0
              | S _ => see_end (Z.of_nat n) scan0
              end =
            {| startDot := -1; startPart := 0; end_ := Z.of_nat n;
               matchedSlash := false; preDotState := 0 |}).
  { intros n Hn. destruct e as [|c0 e'].
    - cbn. f_equal. simpl in Hn. lia.
    - cbn [String.length]. unfold see_end at 2. cbn.
      unfold see_end. cbn [end_].
      destruct (Z.eqb_spec (Z.of_nat n) (-1)); [lia|reflexivity]. }
  rewrite Hlen. rewrite scan_plain_run.
  - replace (L + 1)%nat with (S L) at 1 by lia.
    rewrite scan_from_S, HgetL.
    rewrite scan_step_first_dot.
    + rewrite (Hst _ eq_refl). reflexivity.
    + reflexivity.
    + destruct (String.length e); [reflexivity|apply startDot_see_end].
  - reflexivity.
  - intros j Hj.
    replace j with (L + S (j - L - 1))%nat by lia.
    rewrite Hget. simpl. split; now apply mem_char_get.
Qed.

Lemma extname_none_of_scan (path : string) :
  startDot (scan_from path (String.length path) scan0) = -1 \/
  preDotState (scan_from path (String.length path) scan0) = 0 ->
  extname path = "".
Proof.
  intros H. unfold extname.
  destruct H as [-> | ->]; [reflexivity|].
  now rewrite !orb_true_r.
Qed.

(** A name without a dot has no extension. *)
Lemma extname_no_dot (path : string) :
  mem_char "." path = false -> extname path = "".
Proof.
  intros Hdot. apply extname_none_of_scan. left.
  apply scan_no_dot; [reflexivity|].
  intros j _. now apply mem_char_get.
Qed.

(** A name whose last part starts with its only dot has no extension. *)
Lemma extname_hidden (dir e : string) :
  dir = "" \/ (exists d, dir = d ++ "/") ->
  mem_char "." e = false ->
  mem_char "/" e = false ->
  extname (dir ++ String "." e) = "".
Proof.
  intros Hdir Hdot Hslash.
  apply extname_none_of_scan. right.
  rewrite scan_to_dot by assumption.
  destruct Hdir as [-> | (d & ->)]; [reflexivity|].
  rewrite length_append. simpl String.length.
  replace (String.length d + 1)%nat with (S (String.length d)) by lia.
  rewrite scan_from_S.
  replace (String.get (String.length d) ((d ++ "/") ++ String "." e))
    with (Some "/"%char).
  - reflexivity.
  - rewrite get_append_left by (rewrite length_append; simpl; lia).
    pose proof (get_append_right d "/" 0) as H0.
    rewrite Nat.add_0_r in H0. now rewrite H0.
Qed.

(** After a non-empty stem without "." and "/", a dot and any run
    without "." and "/" are the extension. *)
Lemma extname_plain_stem (stem e : string) :
  stem <> "" ->
  mem_char "." stem = false ->
  mem_char "/" stem = false ->
  mem_char "." e = false ->
  mem_char "/" e = false ->
  extname (stem ++ String "." e) = String "." e.
Proof.
  intros Hne Hsdot Hsslash Hdot Hslash.
  set (path := stem ++ String "." e).
  set (L := String.length stem).
  assert (HL : L <> O) by (unfold L; destruct stem; [contradiction|discriminate]).
  assert (Hlen : String.length path = (L + 1 + String.length e)%nat).
  { unfold path, L. rewrite length_append. simpl. lia. }
  destruct (scan_plain_after_dot path L
              {| startDot := Z.of_nat L; startPart := 0;
                 end_ := Z.of_nat (String.length path);
                 matchedSlash := false; preDotState := 0 |})
    as (A & B & C & _); [simpl; lia|simpl; lia| |].
  { intros j Hj. unfold path.
    rewrite get_append_left by exact Hj.
    split; now apply mem_char_get. }
  specialize (C HL). cbn [startDot end_] in A, B.
  rewrite (extname_of_scan path L (String.length path)).
  - rewrite Hlen.
    replace (L + 1 + String.length e - L)%nat with (S (String.length e)) by lia.
    unfold path.
    replace L with (String.length stem + 0)%nat by (unfold L; lia).
    rewrite substring_skip. simpl. now rewrite substring_all.
  - unfold path. rewrite scan_to_dot by assumption. exact A.
  - unfold path. rewrite scan_to_dot by assumption. exact B.
  - unfold path. rewrite scan_to_dot by assumption.
    fold path. fold L. rewrite C. discriminate.
  - unfold path. rewrite scan_to_dot by assumption.
    fold path. fold L. rewrite C. discriminate.
Qed.

End ExtnameMore.

(** ** What [path.extname] can return *)

Section ExtnameShape.

Variable path : string.

(** The dot the scan settles on, and what lies between it and the end. *)
Lemma scan_shape (n : nat) :
  forall st,
    (n <= String.length path)%nat ->
    (matchedSlash st = true -> end_ st = -1) ->
    (end_ st = -1 -> startDot st = -1) ->
    (end_ st <> -1 -> Z.of_nat n <= end_ st <= Z.of_nat (String.length path)) ->
    (startDot st = -1 ->
       forall j, (n <= j)%nat -> Z.of_nat j < end_ st ->
         is_char (String.get j path) "/" = false /\
         is_char (String.get j path) "." = false) ->
    (startDot st <> -1 ->
       Z.of_nat n <= startDot st < end_ st /\
       is_char (String.get (Z.to_nat (startDot st)) path) "." = true /\
       forall j, startDot st < Z.of_nat j < end_ st ->
         is_char (String.get j path) "/" = false /\
         is_char (String.get j path) "." = false) ->
    startDot (scan_from path n st) <> -1 ->
    0 <= startDot (scan_from path n st) < end_ (scan_from path n st) /\
    end_ (scan_from path n st) <= Z.of_nat (String.length path) /\
    is_char (String.get (Z.to_nat (startDot (scan_from path n st))) path) "." = true /\
    forall j,
      startDot (scan_from path n st) < Z.of_nat j < end_ (scan_from path n st) ->
      is_char (String.get j path) "/" = false /\
      is_char (String.get j path) "." = false.
Proof.
  induction n as [|i IH]; intros st Hn H1 H2 H3 H4 H5.
  - simpl. intros Hsd. destruct (H5 Hsd) as (Hr & Hd & Hp).
    assert (end_ st <> -1) by lia. specialize (H3 H).
    split; [lia|split; [lia|split; [exact Hd|exact Hp]]].
  - rewrite scan_from_S. unfold scan_step.
    destruct (is_char (String.get i path) "/") eqn:Hslash.
    + destruct (matchedSlash st) eqn:Hms; cbn [negb].
      * (* a trailing separator: nothing is set yet *)
        specialize (H1 eq_refl). pose proof (H2 H1) as Hsd0.
        apply IH;
          [ lia
          | intros _; exact H1
          | exact H2
          | intros He; contradiction
          | intros _ j _ Hlt; lia
          | intros Hsd; contradiction ].
      * (* the separator before the last part: the loop ends *)
        cbn [startDot end_]. intros Hsd.
        destruct (H5 Hsd) as (Hr & Hd & Hp).
        assert (end_ st <> -1) by lia. specialize (H3 H).
        split; [lia|split; [lia|split; [exact Hd|exact Hp]]].
    + fold (see_end (Z.of_nat i + 1) st).
      assert (Hse : startDot (see_end (Z.of_nat i + 1) st) = startDot st)
        by apply startDot_see_end.
      assert (Hend : end_ (see_end (Z.of_nat i + 1) st) <> -1)
        by (apply end_see_end; lia).
      assert (Hms : matchedSlash (see_end (Z.of_nat i + 1) st) = true -> False).
      { unfold see_end. destruct (Z.eqb_spec (end_ st) (-1)); cbn; [discriminate|].
        intros Hm. now apply H1 in Hm. }
      assert (Hrange : Z.of_nat (S i) <= end_ (see_end (Z.of_nat i + 1) st)
                       <= Z.of_nat (String.length path)).
      { unfold see_end. destruct (Z.eqb_spec (end_ st) (-1)); cbn; [lia|].
        now apply H3. }
      assert (Hold : startDot st = -1 ->
                forall j, (S i <= j)%nat ->
                  Z.of_nat j < end_ (see_end (Z.of_nat i + 1) st) ->
                  is_char (String.get j path) "/" = false /\
                  is_char (String.get j path) "." = false).
      { intros Hsd0 j Hj. unfold see_end.
        destruct (Z.eqb_spec (end_ st) (-1)); cbn; [lia|].
        now apply H4. }
      assert (Hsame : startDot st <> -1 -> see_end (Z.of_nat i + 1) st = st).
      { intros Hsd. apply see_end_set. intros He. now apply H2 in He. }
      destruct (is_char (String.get i path) ".") eqn:Hdot.
      * rewrite Hse.
        destruct (Z.eqb_spec (startDot st) (-1)) as [Hsd0|Hsd1].
        -- (* the first dot *)
           apply IH; cbn [startDot end_ matchedSlash].
           ++ lia.
           ++ intros Hm. exfalso. now apply Hms.
           ++ intros He. contradiction.
           ++ intros _. lia.
           ++ intros. lia.
           ++ intros _. rewrite Nat2Z.id. split; [lia|]. split; [exact Hdot|].
              intros j Hj. apply (Hold Hsd0); lia.
        -- (* a dot further left *)
           rewrite (Hsame Hsd1).
           destruct (H5 Hsd1) as (Hr & Hd & Hp).
           destruct (negb (preDotState st =? 1));
             (apply IH; cbn [startDot end_ matchedSlash];
              [ lia
              | exact H1
              | exact H2
              | intros He; specialize (H3 He); lia
              | intros; contradiction
              | intros _; split; [lia|split; [exact Hd|exact Hp]] ]).
      * rewrite Hse.
        destruct (Z.eqb_spec (startDot st) (-1)) as [Hsd0|Hsd1]; cbn [negb].
        -- (* a plain character, no dot yet *)
           apply IH.
           ++ lia.
           ++ intros Hm. exfalso. now apply Hms.
           ++ intros He. contradiction.
           ++ intros _. lia.
           ++ rewrite Hse. intros _ j Hj Hlt.
              destruct (Nat.eq_dec j i) as [->|Hne]; [auto|].
              apply (Hold Hsd0); lia.
           ++ rewrite Hse. intros. contradiction.
        -- (* a plain character left of the dot *)
           rewrite (Hsame Hsd1).
           destruct (H5 Hsd1) as (Hr & Hd & Hp).
           apply IH; cbn [startDot end_ matchedSlash];
             [ lia
             | exact H1
             | exact H2
             | intros He; specialize (H3 He); lia
             | intros; contradiction
             | intros _; split; [lia|split; [exact Hd|exact Hp]] ].
Qed.

End ExtnameShape.

Section ExtnameResult.

(** [path.extname] returns nothing, or a dot followed by characters that
    are neither "." nor "/". *)
Lemma extname_shape (path : string) :
  extname path = "" \/
  exists e, extname path = String "." e /\
            mem_char "." e = false /\ mem_char "/" e = false.
Proof.
  unfold extname.
  set (st := scan_from path (String.length path) scan0).
  destruct ((startDot st =? -1) || (end_ st =? -1) || (preDotState st =? 0)
            || ((preDotState st =? 1) && (startDot st =? end_ st - 1)
                && (startDot st =? startPart st + 1))) eqn:Hcond;
    [left; reflexivity|right].
  rewrite !orb_false_iff in Hcond. destruct Hcond as (((Hsd & _) & _) & _).
  apply Z.eqb_neq in Hsd.
  destruct (scan_shape path (String.length path) scan0) as (Hr & Hle & Hd & Hp);
    try (cbn; intros; lia); try (cbn; intros; congruence); auto.
  fold st in Hr, Hle, Hd, Hp.
  set (a := Z.to_nat (startDot st)) in *.
  set (m := Z.to_nat (end_ st - startDot st)).
  assert (Hm : (0 < m)%nat) by (unfold m; lia).
  assert (Hget : forall k, (k < m)%nat ->
                 String.get k (substring a m path) = String.get (k + a) path).
  { intros k Hk. now apply substring_correct1. }
  destruct (substring a m path) as [|c0 e] eqn:Hsub.
  - pose proof (Hget 0%nat Hm) as H0. simpl in H0.
    rewrite <- H0 in Hd. discriminate.
  - exists e.
    pose proof (Hget 0%nat Hm) as H0. simpl in H0.
    rewrite <- H0 in Hd. simpl in Hd. apply Ascii.eqb_eq in Hd. subst c0.
    split; [reflexivity|].
    assert (Hplain : forall k,
              is_char (String.get k e) "/" = false /\
              is_char (String.get k e) "." = false).
    { intros k.
      destruct (Nat.lt_ge_cases (S k) m) as [Hk|Hk].
      - specialize (Hget (S k) Hk). simpl in Hget. rewrite Hget.
        apply Hp. unfold a, m in *. lia.
      - pose proof (substring_correct2 path a m (S k) Hk) as Hnone.
        rewrite Hsub in Hnone. simpl in Hnone. rewrite Hnone. auto. }
    split; apply get_mem_char; intros k; apply Hplain.
Qed.

(** The digits of a number hold no "." and no "/". *)
Lemma string_of_uint_plain (d : Decimal.uint) :
  mem_char "." (NilEmpty.string_of_uint d) = false /\
  mem_char "/" (NilEmpty.string_of_uint d) = false.
Proof. induction d; simpl; auto. Qed.

Lemma digits_plain (z : Z) :
  digits z <> "" /\
  mem_char "." (digits z) = false /\ mem_char "/" (digits z) = false.
Proof.
  unfold digits, NilZero.string_of_uint.
  destruct (N.to_uint (Z.to_N z)) as [|d|d|d|d|d|d|d|d|d|d];
    try (split; [discriminate|split; reflexivity]);
    destruct (string_of_uint_plain d) as [Hd Hs];
    (split; [discriminate|simpl; auto]).
Qed.

Lemma integer_text_plain (z : Z) :
  number_to_string z 0 <> "" /\
  mem_char "." (number_to_string z 0) = false /\
  mem_char "/" (number_to_string z 0) = false.
Proof.
  unfold number_to_string. cbn [normalise].
  destruct (digits_plain (Z.abs z)) as (Hne & Hd & Hs).
  destruct (z <? 0).
  - split; [discriminate|]. rewrite !mem_char_append, Hd, Hs. split; reflexivity.
  - cbn [append]. auto.
Qed.

End ExtnameResult.

(** ** The upload callbacks *)

Lemma toLowerCase_dot (e : string) :
  toLowerCase (String "." e) = String "." (toLowerCase e).
Proof. reflexivity. Qed.

Lemma eqb_same_head (c : ascii) (a b : string) :
  (String c a =? String c b)%string = (a =? b)%string.
Proof. simpl. now rewrite Ascii.eqb_refl. Qed.

Lemma includes_dotted (x : string) :
  includes [".pdf"; ".doc"; ".docx"] (String "." x)
  = includes ["pdf"; "doc"; "docx"] x.
Proof.
  unfold includes. cbn [existsb].
  now rewrite !eqb_same_head.
Qed.

(** X10: for a name that ends in a dot and a non-empty run [e] of
    characters other than "." and "/", the dot coming after a character that
    is no "/", the filter looks at [e] alone, whatever stands before: the
    file is accepted exactly when [e], lower-cased, is pdf, doc or docx, and
    is otherwise refused with the error "Invalid file type". *)
Theorem upload_filter_last_extension (pre : string) (c : ascii) (e : string) :
  c <> "/"%char ->
  e <> "" ->
  mem_char "." e = false ->
  mem_char "/" e = false ->
  fileFilter {| originalname := pre ++ String c (String "." e) |} =
    if includes ["pdf"; "doc"; "docx"] (toLowerCase e)
    then (None, true)
    else (Some {| message := "Invalid file type" |}, false).
Proof.
  intros Hc Hne Hdot Hslash.
  unfold fileFilter. cbn [originalname].
  rewrite (extname_last_extension pre c e Hc Hne Hdot Hslash).
  rewrite toLowerCase_dot, includes_dotted.
  destruct (includes ["pdf"; "doc"; "docx"] (toLowerCase e)); reflexivity.
Qed.

Lemma upload_filter_last_extension_witness :
  fileFilter {| originalname := "My CV.final.PDF" |} = (None, true) /\
  fileFilter {| originalname := "cv.pdf.exe" |}
    = (Some {| message := "Invalid file type" |}, false).
Proof.
  split.
  - apply (upload_filter_last_extension "My CV.fina" "l" "PDF");
      [discriminate|discriminate|reflexivity|reflexivity].
  - apply (upload_filter_last_extension "cv.pd" "f" "exe");
      [discriminate|discriminate|reflexivity|reflexivity].
Defined.

(** X11: a name with no dot at all, and a name whose last part begins
    with its only dot (such as ".pdf" or "docs/.pdf"), has no extension for
    the filter: the file is refused with the error "Invalid file type". *)
Theorem upload_filter_refuses_bare_names (name : string) :
  mem_char "." name = false \/
  (exists dir e,
     name = dir ++ String "." e /\
     (dir = "" \/ exists d, dir = d ++ "/") /\
     mem_char "." e = false /\ mem_char "/" e = false) ->
  fileFilter {| originalname := name |} =
    (Some {| message := "Invalid file type" |}, false).
Proof.
  intros H.
  assert (Hext : extname name = "").
  { destruct H as [Hnd|(dir & e & -> & Hdir & Hdot & Hslash)].
    - now apply extname_no_dot.
    - now apply extname_hidden. }
  unfold fileFilter. cbn [originalname]. rewrite Hext. reflexivity.
Qed.

Lemma upload_filter_refuses_bare_names_witness :
  fileFilter {| originalname := "resume" |}
    = (Some {| message := "Invalid file type" |}, false) /\
  fileFilter {| originalname := "docs/.pdf" |}
    = (Some {| message := "Invalid file type" |}, false).
Proof.
  split.
  - apply upload_filter_refuses_bare_names. left. reflexivity.
  - apply upload_filter_refuses_bare_names. right.
    exists "docs/", "pdf". split; [reflexivity|].
    split; [right; exists "docs"; reflexivity|]. split; reflexivity.
Defined.

(** X12: whatever the original name and the time, the name a file is
    stored under holds no "/", has the extension of the original name, and
    is judged by the filter as the original name is. *)
Theorem upload_stored_name (now : Z) (file : File) :
  exists name,
    filename now file = (None, name) /\
    mem_char "/" name = false /\
    extname name = extname (originalname file) /\
    fileFilter {| originalname := name |} = fileFilter file.
Proof.
  unfold filename. eexists. split; [reflexivity|].
  destruct (integer_text_plain now) as (Hne & Hd & Hs).
  assert (Hext : extname (number_to_string now 0 ++ extname (originalname file))
                 = extname (originalname file)).
  { destruct (extname_shape (originalname file)) as [->|(e & -> & He1 & He2)].
    - replace (number_to_string now 0 ++ "") with (number_to_string now 0).
      + now apply extname_no_dot.
      + clear. induction (number_to_string now 0); simpl; congruence.
    - now apply extname_plain_stem. }
  split; [|split].
  - rewrite mem_char_append, Hs.
    destruct (extname_shape (originalname file)) as [->|(e & -> & He1 & He2)];
      [reflexivity|].
    simpl. exact He2.
  - exact Hext.
  - unfold fileFilter. cbn [originalname]. now rewrite Hext.
Qed.
